(** * readoutlibs: timestamp lookup on the latency buffer, recorder and
    source emulator worker loops

    A shallow embedding of

      - [FixedRateQueueModel<T>::lower_bound]
        (include/readoutlibs/models/FixedRateQueueModel.hpp),
      - [RecorderImpl<T>::do_work]
        (include/readoutlibs/models/RecorderModel.hpp),
      - [SourceEmulatorModel<T>::conf] and [run_produce]
        (include/readoutlibs/models/SourceEmulatorModel.hpp),

    followed by the properties established for them.  C++ unsigned
    integers are integers of [Z] with the wrap-around written out;
    operations whose behaviour C++ leaves undefined (division by zero,
    an array read outside the storage) end the computation in
    [Undefined]. *)

From Stdlib Require Import ZArith List Bool Lia ZifyBool.
From Stdlib Require Import Floats.SpecFloat.
From Stdlib Require Strings.String.
Import ListNotations.

Local Open Scope Z_scope.

(* ================================================================== *)
(** * Machine integers *)

(** [uint64_t] / [size_t] arithmetic: results are reduced modulo 2^64. *)
Definition u64 (z : Z) : Z := z mod 2 ^ 64.

(** [uint32_t] / [unsigned int] arithmetic: results are reduced modulo 2^32. *)
Definition u32 (z : Z) : Z := z mod 2 ^ 32.

(** Conversion of a [uint64_t] value to [int64_t] (two's complement). *)
Definition to_int64 (z : Z) : Z := if z <? 2 ^ 63 then z else z - 2 ^ 64.

(* ================================================================== *)
(** * The record contract *)

(** Modelled from the spec: the record types that instantiate the
    template parameter [T] are declared outside the three headers
    embedded here; the spec gives [first_timestamp() -> Tick],
    [frame_count() -> uint] and the type-level constant
    [expected_tick_difference].  The accessors are the members the code
    calls on [T]; the range laws say that [get_first_timestamp] returns
    a [uint64_t] and that the frame count and the tick spacing are
    unsigned 64-bit values, so that the division [time_tick_diff /
    get_num_frames()] is carried out on unsigned operands. *)
Class ReadoutType (T : Type) : Type := {
  get_first_timestamp : T -> Z;
  get_num_frames : T -> Z;
  expected_tick_difference : Z;
  get_first_timestamp_range : forall r, 0 <= get_first_timestamp r < 2 ^ 64;
  get_num_frames_range : forall r, 0 <= get_num_frames r < 2 ^ 64;
  expected_tick_difference_range : 0 <= expected_tick_difference < 2 ^ 64
}.

(* ================================================================== *)
(** * IterableQueueModel: the ring buffer the lookups read *)

Module IterableQueueModel.

(** The data members of the queue that [lower_bound] touches. *)
Record t (T : Type) : Type := Build {
  size_ : Z;
  records_ : list T;
  readIndex_ : Z;
  writeIndex_ : Z
}.
Arguments Build {T} _ _ _ _.
Arguments size_ {T} _.
Arguments records_ {T} _.
Arguments readIndex_ {T} _.
Arguments writeIndex_ {T} _.

(** Modelled from the spec: the Iterator class is declared in
    IterableQueueModel.hpp, outside the headers embedded here.  A position is a slot index or the distinguished
    "end" sentinel ("positions range over [0, capacity) plus one
    sentinel end value"). *)
Inductive Iterator : Type :=
| IterAt (index : Z)
| IterEnd.

(** Result of running an operation on a queue: the value returned
    together with the queue afterwards, or undefined behaviour. *)
Inductive outcome (T A : Type) : Type :=
| Returns (a : A) (q : t T)
| Undefined.
Arguments Returns {T A} _ _.
Arguments Undefined {T A}.

(** Operations are state transformers over the queue. *)
Definition M (T A : Type) : Type := t T -> outcome T A.

Definition ret {T A} (a : A) : M T A := fun q => Returns a q.

Definition bind {T A B} (m : M T A) (k : A -> M T B) : M T B :=
  fun q => match m q with
           | Returns a q' => k a q'
           | Undefined => Undefined
           end.

(** A load of one of the members; the queue is left as it is. *)
Definition load {T A} (field : t T -> A) : M T A := fun q => Returns (field q) q.

(** [records_[i]]: reading outside the allocated storage is undefined. *)
Definition records_at {T} (i : Z) : M T T :=
  fun q => if (0 <=? i) && (i <? Z.of_nat (length (records_ q)))
           then match nth_error (records_ q) (Z.to_nat i) with
                | Some r => Returns r q
                | None => Undefined
                end
           else Undefined.

(** Unsigned division; a zero divisor is undefined. *)
Definition udiv {T} (a b : Z) : M T Z :=
  fun q => if b =? 0 then Undefined else Returns (a / b) q.

(** Modelled from the spec: [occupancy()] is a member of
    IterableQueueModel.hpp, outside the headers embedded here.
    "snapshot read of (write - read) mod capacity". *)
Definition occupancy_of {T} (q : t T) : Z :=
  (writeIndex_ q - readIndex_ q) mod size_ q.

Definition occupancy {T} : M T Z := load occupancy_of.

(** Modelled from the spec: [end()] is the sentinel position. *)
Definition end_ {T} : M T Iterator := ret IterEnd.

(** Modelled from the spec: the physical slot of the [i]-th retained
    record, counted from the read cursor ("physical = (read + logical)
    mod capacity"). *)
Definition physical {T} (q : t T) (i : Z) : Z := (readIndex_ q + i) mod size_ q.

(** The record stored in slot [i], if the slot exists. *)
Definition slot {T} (q : t T) (i : Z) : option T :=
  if (0 <=? i) && (i <? Z.of_nat (length (records_ q)))
  then nth_error (records_ q) (Z.to_nat i) else None.

(** The [i]-th retained record, if [0 <= i < occupancy]. *)
Definition retained {T} (q : t T) (i : Z) : option T :=
  if (0 <=? i) && (i <? occupancy_of q) then slot q (physical q i) else None.

(** Modelled from the spec: [front()] and [back()], "accessors to the
    oldest/newest committed record". *)
Definition front {T} (q : t T) : option T := retained q 0.
Definition back {T} (q : t T) : option T := retained q (occupancy_of q - 1).

(** Representation invariant of the queue: a positive capacity that
    fits [uint32_t], storage of exactly [size_] slots, and both
    cursors inside the storage. *)
Definition queue_ok {T} (q : t T) : bool :=
  (0 <? size_ q) && (size_ q <? 2 ^ 32)
  && (Z.of_nat (length (records_ q)) =? size_ q)
  && (0 <=? readIndex_ q) && (readIndex_ q <? size_ q)
  && (0 <=? writeIndex_ q) && (writeIndex_ q <? size_ q).

End IterableQueueModel.

Import IterableQueueModel.

Declare Scope queue_scope.
Notation "x <- m ;; k" := (bind m (fun x => k))
  (at level 61, m at next level, right associativity) : queue_scope.
Local Open Scope queue_scope.

(* ================================================================== *)
(** * BinarySearchQueueModel: the base class of the fixed-rate lookup *)

Module BinarySearchQueueModel.
Section WithRecord.
Context {T : Type} `{ReadoutType T}.

(** The trustworthiness check of the error-tolerant scan; the spec
    leaves the predicate to the record type. *)
Variable trustworthy : T -> bool.

(** Modelled from the spec: the record at logical position [i] of the
    valid range, "physical = (read + logical) mod capacity". *)
Definition logical_at (i : Z) : M T T :=
  start_index <- load readIndex_ ;;
  capacity <- load size_ ;;
  records_at ((start_index + i) mod capacity).

(** Modelled from the spec: "classic binary search over the logical
    index range [0, occupancy()) ..., comparing record.first_timestamp()
    against target_timestamp, narrowing to the leftmost position whose
    timestamp is >= target".  [steps] bounds the number of halvings. *)
Fixpoint search (steps : nat) (target lo hi : Z) : M T Z :=
  match steps with
  | O => ret lo
  | S steps' =>
      if lo <? hi then
        let mid := lo + (hi - lo) / 2 in
        r <- logical_at mid ;;
        if get_first_timestamp r <? target
        then search steps' target (mid + 1) hi
        else search steps' target lo mid
      else ret lo
  end.

(** Modelled from the spec: the error-tolerant mode, "a linear scan
    across the valid range that tolerates and skips malformed entries
    while still returning the first trustworthy record whose timestamp
    is >= target". *)
Fixpoint scan (steps : nat) (target i : Z) : M T Iterator :=
  match steps with
  | O => end_
  | S steps' =>
      r <- logical_at i ;;
      if trustworthy r && (target <=? get_first_timestamp r)
      then (start_index <- load readIndex_ ;;
            capacity <- load size_ ;;
            ret (IterAt ((start_index + i) mod capacity)))
      else scan steps' target (i + 1)
  end.

(** Modelled from the spec: [BinarySearchQueueModel<T>::lower_bound] is
    defined in BinarySearchQueueModel.hpp, outside the headers embedded
    here.  "Returns end() if the target
    exceeds the newest retained timestamp or precedes the oldest";
    an empty buffer retains no record the target could be compared
    with and yields the sentinel as well. *)
Definition lower_bound (element : T) (with_errors : bool) : M T Iterator :=
  let target := get_first_timestamp element in
  occ <- occupancy ;;
  if with_errors then scan (Z.to_nat occ) target 0
  else if occ <=? 0 then end_
  else
    oldest <- logical_at 0 ;;
    newest <- logical_at (occ - 1) ;;
    if (target <? get_first_timestamp oldest) || (get_first_timestamp newest <? target)
    then end_
    else
      pos <- search (Z.to_nat occ) target 0 occ ;;
      start_index <- load readIndex_ ;;
      capacity <- load size_ ;;
      ret (IterAt ((start_index + pos) mod capacity)).

End WithRecord.
End BinarySearchQueueModel.

(* ================================================================== *)
(** * FixedRateQueueModel *)

Module FixedRateQueueModel.
Section WithRecord.
Context {T : Type} `{ReadoutType T}.

(** The inherited [BinarySearchQueueModel<T>::lower_bound]. *)
Variable BinarySearchQueueModel_lower_bound : T -> bool -> M T Iterator.

(** [FixedRateQueueModel<T>::lower_bound(T& element, bool with_errors)].
    The products and the sum of [newest_ts] are evaluated in
    [size_t] / [uint64_t]; [time_tick_diff] is an [int64_t] that the
    division by the unsigned frame count converts back;
    [num_element_offset] and [target_index] are [uint32_t]. *)
Definition lower_bound (element : T) (with_errors : bool) : M T Iterator :=
  if with_errors then BinarySearchQueueModel_lower_bound element with_errors
  else
    let timestamp := get_first_timestamp element in
    start_index <- load readIndex_ ;;
    occupancy_guess <- occupancy ;;
    r <- records_at start_index ;;
    let last_ts := get_first_timestamp r in
    r' <- records_at start_index ;;
    let newest_ts :=
      u64 (last_ts
           + u64 (u64 (occupancy_guess * expected_tick_difference) * get_num_frames r')) in
    if (last_ts >? timestamp) || (timestamp >? newest_ts) then end_
    else
      ticks <- udiv (u64 (timestamp - last_ts)) expected_tick_difference ;;
      let time_tick_diff := to_int64 ticks in
      r'' <- records_at start_index ;;
      elements <- udiv (u64 time_tick_diff) (get_num_frames r'') ;;
      let num_element_offset := u32 elements in
      let target_index := u32 (start_index + num_element_offset) in
      capacity <- load size_ ;;
      let target_index :=
        if target_index >=? capacity then u32 (target_index - capacity) else target_index in
      ret (IterAt target_index).

End WithRecord.

(** The fast path and the inherited fallback of the shipped class:
    [FixedRateQueueModel<T>] over the spec-modelled base class. *)
Definition lookup {T : Type} `{ReadoutType T} (trustworthy : T -> bool)
    (element : T) (with_errors : bool) : M T Iterator :=
  lower_bound (BinarySearchQueueModel.lower_bound trustworthy) element with_errors.

End FixedRateQueueModel.

(* ================================================================== *)
(** * RecorderModel: the worker loop of the recorder *)

(** [std::atomic<int>] counters: increments wrap in two's complement. *)
Definition int32 (z : Z) : Z := (z + 2 ^ 31) mod 2 ^ 32 - 2 ^ 31.

Module RecorderModel.
Section WithRecord.
(** The element type [ReadoutType] popped from the input queue. *)
Variable T : Type.

(** [BufferedFileWriter<>]: its state and the two members [do_work]
    calls.  The class is declared in utils/BufferedFileWriter.hpp,
    outside the headers embedded here; [write]
    answers whether the bytes were accepted. *)
Variable BufferedFileWriter : Type.
Variable write : BufferedFileWriter -> T -> bool * BufferedFileWriter.
Variable flush : BufferedFileWriter -> BufferedFileWriter.

(** What [m_input_queue->pop(element, 100ms)] does: it fills [element]
    or throws [QueueTimeoutExpired]. *)
Inductive pop_outcome : Type :=
| Popped (element : T)
| QueueTimeoutExpired.

(** What the surroundings contribute to one pass of the [while] loop:
    the value of [m_run_marker] tested at the head of the loop and the
    outcome of the [pop] in its body. *)
Record pass : Type := Pass {
  run_marker : bool;
  pop : pop_outcome
}.

(** The members [do_work] updates, and the warnings it has issued. *)
Record state : Type := State {
  m_buffered_writer : BufferedFileWriter;
  m_packets_processed_total : Z;
  m_packets_processed_since_last_info : Z;
  warnings : nat
}.

Inductive control : Type := Continue | Break.

(** The [try] block and its [catch] handler. *)
Definition body (p : pop_outcome) (s : state) : control * state :=
  match p with
  | Popped element =>
      let total := int32 (m_packets_processed_total s + 1) in
      let since := int32 (m_packets_processed_since_last_info s + 1) in
      let (ok, w) := write (m_buffered_writer s) element in
      if negb ok
      then (Break, State w total since (S (warnings s)))
      else (Continue, State w total since (warnings s))
  | QueueTimeoutExpired => (Continue, s)
  end.

(** Why the [while] loop was left. *)
Inductive exit : Type := RunMarkerCleared | WriteFailed.

(** [while (m_run_marker) { ... }] along a schedule of passes; [None]
    says that the schedule ended with the loop still running. *)
Fixpoint loop (schedule : list pass) (s : state) : option exit * state :=
  match schedule with
  | [] => (None, s)
  | p :: schedule' =>
      if run_marker p then
        match body (pop p) s with
        | (Continue, s') => loop schedule' s'
        | (Break, s') => (Some WriteFailed, s')
        end
      else (Some RunMarkerCleared, s)
  end.

(** [RecorderImpl::do_work]: the loop, then [m_buffered_writer.flush()]
    once the loop has been left. *)
Definition do_work (schedule : list pass) (s : state) : option exit * state :=
  match loop schedule s with
  | (Some e, s') =>
      (Some e, State (flush (m_buffered_writer s')) (m_packets_processed_total s')
                     (m_packets_processed_since_last_info s') (warnings s'))
  | (None, s') => (None, s')
  end.

(** A pass on which [pop] times out while the run marker is set. *)
Definition timed_out (p : pass) : bool :=
  run_marker p && match pop p with QueueTimeoutExpired => true | Popped _ => false end.

(** A pass that makes the loop end: the marker is found cleared, or
    the record popped is refused by the writer in state [w]. *)
Definition marker_cleared (p : pass) : bool := negb (run_marker p).

Definition write_refused (p : pass) (w : BufferedFileWriter) : bool :=
  run_marker p && match pop p with
                  | Popped element => negb (fst (write w element))
                  | QueueTimeoutExpired => false
                  end.

(** The records handed over by [pop] while the loop keeps running: those
    of the passes before the first one that finds the run marker
    cleared. *)
Fixpoint popped_while_running (schedule : list pass) : list T :=
  match schedule with
  | [] => []
  | p :: schedule' =>
      if run_marker p then
        match pop p with
        | Popped element => element :: popped_while_running schedule'
        | QueueTimeoutExpired => popped_while_running schedule'
        end
      else []
  end.

(** Both counters hold values of an [int]. *)
Definition counters_in_range (s : state) : bool :=
  (- 2 ^ 31 <=? m_packets_processed_total s) && (m_packets_processed_total s <? 2 ^ 31)
  && (- 2 ^ 31 <=? m_packets_processed_since_last_info s)
  && (m_packets_processed_since_last_info s <? 2 ^ 31).

(** [RecorderImpl::do_start]: the total is reset; the run marker and the
    worker thread belong to the surroundings. *)
Definition do_start (s : state) : state :=
  State (m_buffered_writer s) 0 (m_packets_processed_since_last_info s) (warnings s).

(** [std::chrono::steady_clock::time_point], the seconds between two of
    them as a [double], and the division of an [int] by a [double]. *)
Variable time_point : Type.
Variable seconds_between : time_point -> time_point -> spec_float.
Variable int_by_double : Z -> spec_float -> spec_float.

(** The two fields of [recorderinfo::Info] that [get_info] fills. *)
Record Info : Type := MkInfo {
  packets_processed : Z;
  throughput_processed_packets : spec_float
}.

(** [RecorderImpl::get_info]: [now] and [now'] are the two readings of
    the clock, [last_info] is [m_time_point_last_info]; the result is
    the info added to the collector, the new [m_time_point_last_info]
    and the members afterwards. *)
Definition get_info (now now' last_info : time_point) (s : state)
    : Info * time_point * state :=
  let time_diff := seconds_between now last_info in
  (MkInfo (m_packets_processed_total s)
          (int_by_double (m_packets_processed_since_last_info s) time_diff),
   now',
   State (m_buffered_writer s) (m_packets_processed_total s) 0 (warnings s)).

End WithRecord.
End RecorderModel.

(* ================================================================== *)
(** * SourceEmulatorModel: the dropout table and the producer loop *)

Module SourceEmulatorModel.

(** C++ [double] values and their comparisons. *)
Definition double : Type := spec_float.
Definition zero : double := S754_zero false.
Definition one : double := S754_finite false 4503599627370496 (-52).

(** [a >= b] and [a == b] on doubles. *)
Definition ge (a b : double) : bool := SFleb b a.
Definition eq (a b : double) : bool := SFeqb a b.

(** The part of [conf] that builds [m_dropouts]; [dis i] is the [i]-th
    value drawn from [std::uniform_real_distribution<double>(0.0, 1.0)]. *)
Definition conf_dropouts (m_dropout_rate : double) (random_population_size : nat)
    (dis : nat -> double) : list bool :=
  let size := if eq m_dropout_rate zero then 1%nat else random_population_size in
  map (fun i => ge (dis i) m_dropout_rate) (seq 0 size).

(** A payload handed to the sink: the record of the sample file it was
    copied from and the timestamp stamped on it. *)
Record payload : Type := Payload {
  source_record : Z;
  stamped_timestamp : Z
}.

(** What the surroundings contribute to one pass of the producer loop:
    the run marker read at the head of the loop, and whether the sink
    accepted the push ([false]: [push] threw, a warning is issued). *)
Record pass : Type := Pass {
  run_marker : bool;
  push_accepted : bool
}.

(** The locals and members [run_produce] updates; [pushed] lists the
    payloads passed to [m_raw_data_sink->push], oldest first, and
    [delivered] those of them the sink took, the pushes that did not
    throw. *)
Record state : Type := State {
  offset : Z;
  timestamp : Z;
  dropout_index : Z;
  m_packet_count : Z;
  m_packet_count_tot : Z;
  pushed : list payload;
  warnings : nat;
  delivered : list payload
}.

Section Producer.
(** [m_file_source->num_elements()], [sizeof(ReadoutType)] and
    [source.size()] of the sample buffer, the tick spacing and the
    dropout table. *)
Variable num_elem : Z.
Variable sizeof_ReadoutType : Z.
Variable source_size : Z.
Variable m_time_tick_diff : Z.
Variable m_dropouts : list bool.

(** [m_dropouts[i]]: an index outside the vector is undefined. *)
Definition dropouts_at (i : Z) : option bool :=
  if (0 <=? i) && (i <? Z.of_nat (length m_dropouts))
  then nth_error m_dropouts (Z.to_nat i) else None.

(** One pass of the body of [while (m_run_marker.load())]; [None] is
    undefined behaviour (an index outside [m_dropouts], a remainder by
    zero, a copy from beyond the sample buffer).  The error bits
    written into the payload change its contents only and are left
    out. *)
Definition body (accepted : bool) (s : state) : option state :=
  let offset1 :=
    if (offset s =? u64 (num_elem * sizeof_ReadoutType))
       || (u64 (u32 (offset s + 1) * sizeof_ReadoutType) >? source_size)
    then 0 else offset s in
  match dropouts_at (dropout_index s) with
  | None => None
  | Some create_frame =>
      if Z.of_nat (length m_dropouts) =? 0 then None
      else
        let dropout_index1 := (dropout_index s + 1) mod Z.of_nat (length m_dropouts) in
        let timestamp1 := u64 (timestamp s + u64 (m_time_tick_diff * 12)) in
        if create_frame then
          if (offset1 + 1) * sizeof_ReadoutType >? source_size then None
          else
            Some (State (u32 (offset1 + 1)) timestamp1 dropout_index1
                        (int32 (m_packet_count s + 1)) (int32 (m_packet_count_tot s + 1))
                        (pushed s ++ [Payload offset1 (timestamp s)])
                        (if accepted then warnings s else S (warnings s))
                        (if accepted
                         then delivered s ++ [Payload offset1 (timestamp s)]
                         else delivered s))
        else
          Some (State offset1 timestamp1 dropout_index1
                      (m_packet_count s) (m_packet_count_tot s) (pushed s) (warnings s)
                      (delivered s))
  end.

(** The producer loop along a schedule of passes; it is left when the
    run marker is found cleared, and the schedule may end first. *)
Fixpoint loop (schedule : list pass) (s : state) : option state :=
  match schedule with
  | [] => Some s
  | p :: schedule' =>
      if run_marker p then
        match body (push_accepted p) s with
        | Some s' => loop schedule' s'
        | None => None
        end
      else Some s
  end.

(** What the loop keeps true of the replay: the offset stays within the
    [num_elem] records of the buffer and in step with the number of
    payloads pushed, and the payloads pushed so far were copied from the
    records 0, 1, ..., [num_elem - 1], 0, 1, ... in turn. *)
Definition replay_invariant (s : state) : Prop :=
  0 <= offset s <= num_elem
  /\ offset s mod num_elem = Z.of_nat (length (pushed s)) mod num_elem
  /\ map source_record (pushed s)
     = map (fun i => Z.of_nat i mod num_elem) (seq 0 (length (pushed s))).

(** [run_produce]: the locals are initialised ([offset = 0],
    [timestamp = ts_0], [dropout_index = 0]) and the loop runs. *)
Definition run_produce (ts_0 : Z) (packet_count packet_count_tot : Z)
    (schedule : list pass) : option state :=
  loop schedule (State 0 ts_0 0 packet_count packet_count_tot [] 0 []).

End Producer.

(** The passes of a schedule that are carried out: those before the
    first one that finds the run marker cleared. *)
Fixpoint passes_run (schedule : list pass) : nat :=
  match schedule with
  | [] => 0%nat
  | p :: schedule' => if run_marker p then S (passes_run schedule') else 0%nat
  end.

(** Whether pass number [i] of the producer loop (counted from 0) finds
    [create_frame] set: the loop walks the table cyclically. *)
Definition creates_frame (table : list bool) (i : nat) : bool :=
  nth (i mod length table) table false.

(** The passes, numbered from [k] on, that are carried out and whose
    push the sink accepts. *)
Fixpoint accepted_passes (k : nat) (schedule : list pass) : list nat :=
  match schedule with
  | [] => []
  | p :: schedule' =>
      if run_marker p then
        (if push_accepted p then [k] else []) ++ accepted_passes (S k) schedule'
      else []
  end.

(** The pushes the sink refuses: the passes, numbered from [k] on, that
    find [create_frame] set and whose push throws. *)
Fixpoint refused_pushes (table : list bool) (k : nat) (schedule : list pass) : nat :=
  match schedule with
  | [] => 0%nat
  | p :: schedule' =>
      if run_marker p then
        ((if creates_frame table k && negb (push_accepted p) then 1 else 0)
         + refused_pushes table (S k) schedule')%nat
      else 0%nat
  end.

(** The two fields of [sourceemulatorinfo::Info]. *)
Record Info : Type := MkInfo {
  packets : Z;
  new_packets : Z
}.

(** [SourceEmulatorModel::get_info]: [m_packet_count_tot.load()] and
    [m_packet_count.exchange(0)]. *)
Definition get_info (s : state) : Info * state :=
  (MkInfo (m_packet_count_tot s) (m_packet_count s),
   State (offset s) (timestamp s) (dropout_index s) 0 (m_packet_count_tot s)
         (pushed s) (warnings s) (delivered s)).

(** [m_file_source]: no buffer (before [conf], after [reset()]), a buffer
    whose [read] threw, or a buffer holding the records read. *)
Inductive file_source : Type :=
| NoBuffer
| UnreadBuffer
| Loaded (records : Z).

(** The members of the emulator that [set_sink], [conf] and [scrap]
    touch. *)
Record emulator : Type := Emulator {
  m_dropout_rate : double;
  m_frame_error_rate : double;
  m_sink_is_set : bool;
  m_raw_data_sink : option String.string;
  m_is_configured : bool;
  m_file_source : file_source;
  m_dropouts : list bool;
  m_dropouts_length : nat;
  m_frame_errors_length : nat
}.

(** [set_sink]: the sink is created on the first call only. *)
Definition set_sink (sink_name : String.string) (e : emulator) : emulator :=
  if negb (m_sink_is_set e)
  then Emulator (m_dropout_rate e) (m_frame_error_rate e) true (Some sink_name)
                (m_is_configured e) (m_file_source e) (m_dropouts e)
                (m_dropouts_length e) (m_frame_errors_length e)
  else e.

(** What [conf] takes from the link configuration, and what reading the
    sample file gives: the number of records read, or nothing when
    [FileSourceBuffer::read] throws. *)
Record link_conf : Type := LinkConf {
  random_population_size : nat;
  emu_frame_error_rate : double;
  file_read : option Z
}.

(** [conf] returns, or throws [ConfigurationError]; either way the
    members are left as given. *)
Inductive conf_outcome : Type :=
| Configured (e : emulator)
| ConfigurationError (e : emulator).

(** [SourceEmulatorModel::conf].  A failed read leaves the freshly made
    sample buffer behind; the tables are built after the read. *)
Definition conf (lc : link_conf) (dis : nat -> double) (e : emulator) : conf_outcome :=
  if m_is_configured e then Configured e
  else
    match file_read lc with
    | None =>
        ConfigurationError
          (Emulator (m_dropout_rate e) (m_frame_error_rate e) (m_sink_is_set e)
                    (m_raw_data_sink e) false UnreadBuffer (m_dropouts e)
                    (m_dropouts_length e) (m_frame_errors_length e))
    | Some records =>
        Configured
          (Emulator (m_dropout_rate e) (emu_frame_error_rate lc) (m_sink_is_set e)
                    (m_raw_data_sink e) true (Loaded records)
                    (conf_dropouts (m_dropout_rate e) (random_population_size lc) dis)
                    (random_population_size lc) (random_population_size lc))
    end.

(** [scrap]: the sample buffer is released and the emulator is no
    longer configured. *)
Definition scrap (e : emulator) : emulator :=
  Emulator (m_dropout_rate e) (m_frame_error_rate e) (m_sink_is_set e)
           (m_raw_data_sink e) false NoBuffer (m_dropouts e)
           (m_dropouts_length e) (m_frame_errors_length e).

(** [is_configured]. *)
Definition is_configured (e : emulator) : bool := m_is_configured e.

End SourceEmulatorModel.

(* ================================================================== *)
(** * Vocabulary of the properties *)

Section Vocabulary.
Context {T : Type} `{ReadoutType T}.

(** The logical positions [0 .. occupancy-1] of the retained records. *)
Definition logical_positions (q : t T) : list Z :=
  map Z.of_nat (seq 0 (Z.to_nat (occupancy_of q))).

(** Uniformly spaced data: the [i]-th retained record carries [fpr]
    frames and starts [i * expected_tick_difference * fpr] ticks after
    [ts0]. *)
Definition uniformly_spaced (q : t T) (ts0 fpr : Z) : bool :=
  forallb (fun i => match retained q i with
                    | Some r => (get_first_timestamp r =? ts0 + i * (expected_tick_difference * fpr))
                                && (get_num_frames r =? fpr)
                    | None => false
                    end)
          (logical_positions q).

(** Retained records with non-decreasing timestamps in cursor order. *)
Definition non_decreasing (q : t T) : bool :=
  forallb (fun i => match retained q i, retained q (i + 1) with
                    | Some r, Some r' => get_first_timestamp r <=? get_first_timestamp r'
                    | _, _ => true
                    end)
          (logical_positions q).

(** [it] points at a record whose first timestamp is the smallest one
    that is at least [target] among the retained records. *)
Definition smallest_at_least (q : t T) (target : Z) (it : Iterator) : Prop :=
  exists idx r, it = IterAt idx /\ slot q idx = Some r
    /\ target <= get_first_timestamp r
    /\ forall i r', retained q i = Some r' -> target <= get_first_timestamp r' ->
                    get_first_timestamp r <= get_first_timestamp r'.

(** [it] points at a retained record whose first timestamp is the
    largest one that is at most [target] among the retained records. *)
Definition largest_at_most (q : t T) (target : Z) (it : Iterator) : Prop :=
  exists k r, it = IterAt (physical q k) /\ retained q k = Some r
    /\ get_first_timestamp r <= target
    /\ forall i r', retained q i = Some r' -> get_first_timestamp r' <= target ->
                    get_first_timestamp r' <= get_first_timestamp r.

End Vocabulary.

(** The value an operation returned, if it returned. *)
Definition returned {T A : Type} (o : outcome T A) : option A :=
  match o with
  | Returns a _ => Some a
  | Undefined => None
  end.

(** An operation that only reads: whenever it returns, the queue it
    leaves behind is the one it was run on (cursors, records, capacity). *)
Definition read_only {T A : Type} (m : M T A) : Prop :=
  forall q a q', m q = Returns a q' -> q' = q.

(* ================================================================== *)
(** * A record type and queues for the examples *)

Module Example.

(** A frame with 64-bit fields, sampled every 10 ticks. *)
Record Frame : Type := MkFrame {
  first_timestamp : Z;
  num_frames : Z
}.

#[export] Instance Frame_ReadoutType : ReadoutType Frame :=
  {| get_first_timestamp := fun f => u64 (first_timestamp f);
     get_num_frames := fun f => u64 (num_frames f);
     expected_tick_difference := 10;
     get_first_timestamp_range :=
       fun f => Z.mod_pos_bound (first_timestamp f) (2 ^ 64) eq_refl;
     get_num_frames_range :=
       fun f => Z.mod_pos_bound (num_frames f) (2 ^ 64) eq_refl;
     expected_tick_difference_range :=
       conj (proj1 (Z.leb_le 0 10) eq_refl) (proj1 (Z.ltb_lt 10 (2 ^ 64)) eq_refl) |}.

(** A record of two frames starting at tick [ts]. *)
Definition frame (ts : Z) : Frame := MkFrame ts 2.

(** Capacity 4, three records retained from slot 0 on; slot 3 is free. *)
Definition three_records : t Frame :=
  Build 4 [frame 100; frame 120; frame 140; frame 0] 0 3.

(** Capacity 4, three records retained from slot 2 on, wrapping to
    slot 0; slot 1 is free. *)
Definition wrapped_records : t Frame :=
  Build 4 [frame 140; frame 0; frame 100; frame 120] 2 1.

(** Capacity 4 and nothing retained; the slot at the read cursor still
    holds the record popped last. *)
Definition drained : t Frame :=
  Build 4 [frame 100; frame 120; frame 140; frame 0] 2 2.

(** Capacity 4, three records with non-decreasing but unevenly spaced
    timestamps. *)
Definition uneven_records : t Frame :=
  Build 4 [frame 100; frame 105; frame 300; frame 0] 0 3.

(** Every record is trusted by the error-tolerant scan. *)
Definition trust_all (f : Frame) : bool := true.

End Example.

(* ================================================================== *)
(** * Facts about machine integers *)

Lemma u64_small (z : Z) : 0 <= z < 2 ^ 64 -> u64 z = z.
Proof. intros Hz. unfold u64. apply Z.mod_small. exact Hz. Qed.

Lemma u32_small (z : Z) : 0 <= z < 2 ^ 32 -> u32 z = z.
Proof. intros Hz. unfold u32. apply Z.mod_small. exact Hz. Qed.

Lemma u64_range (z : Z) : 0 <= u64 z < 2 ^ 64.
Proof. unfold u64. apply Z.mod_pos_bound. lia. Qed.

Lemma u32_range (z : Z) : 0 <= u32 z < 2 ^ 32.
Proof. unfold u32. apply Z.mod_pos_bound. lia. Qed.

Lemma u64_le (z : Z) : 0 <= z -> u64 z <= z.
Proof. intros Hz. unfold u64. apply Z.mod_le; lia. Qed.

(** Converting to [int64_t] and back to an unsigned 64-bit operand
    gives the value back. *)
Lemma u64_to_int64 (z : Z) : 0 <= z < 2 ^ 64 -> u64 (to_int64 z) = z.
Proof.
  intros Hz. unfold to_int64.
  destruct (z <? 2 ^ 63) eqn:E.
  - now apply u64_small.
  - unfold u64. rewrite <- (Z.mod_add (z - 2 ^ 64) 1 (2 ^ 64)) by lia.
    replace (z - 2 ^ 64 + 1 * 2 ^ 64) with z by lia.
    now apply Z.mod_small.
Qed.

(** The three-step product of [newest_ts] is the product reduced once. *)
Lemma u64_product (a b c : Z) : u64 (u64 (a * b) * c) = u64 (a * b * c).
Proof. unfold u64. now rewrite Z.mul_mod_idemp_l by lia. Qed.

Lemma u64_sum (a b : Z) : u64 (a + u64 b) = u64 (a + b).
Proof. unfold u64. now rewrite Z.add_mod_idemp_r by lia. Qed.

(** Dividing twice by positive numbers never exceeds the quotient of
    the product. *)
Lemma div_div_le (x n a b : Z) :
  0 < a -> 0 < b -> 0 <= n -> 0 <= x <= n * a * b -> 0 <= x / a / b <= n.
Proof.
  intros Ha Hb Hn Hx. split.
  - apply Z.div_pos; [apply Z.div_pos|]; lia.
  - rewrite Z.div_div by lia.
    apply Z.div_le_upper_bound; [nia|]. nia.
Qed.

(** A multiple of [s] that does not exceed [x] has a factor of at most
    the quotient of [x] by [s]. *)
Lemma multiple_below_quotient (x s i : Z) :
  0 < s -> i * s <= x -> i <= x / s.
Proof.
  intros Hs Hi. apply Z.div_le_lower_bound; lia.
Qed.

Lemma quotient_times_le (x s : Z) : 0 < s -> 0 <= x -> x / s * s <= x.
Proof.
  intros Hs Hx. pose proof (Z.mul_div_le x s Hs). lia.
Qed.

(* ================================================================== *)
(** * Facts about the ring buffer *)

Section QueueFacts.
Context {T : Type} `{ReadoutType T}.

Lemma queue_ok_inv (q : t T) :
  queue_ok q = true ->
  0 < size_ q < 2 ^ 32 /\ Z.of_nat (length (records_ q)) = size_ q
  /\ 0 <= readIndex_ q < size_ q /\ 0 <= writeIndex_ q < size_ q.
Proof.
  unfold queue_ok. rewrite !andb_true_iff. lia.
Qed.

Lemma occupancy_bounds (q : t T) :
  queue_ok q = true -> 0 <= occupancy_of q < size_ q.
Proof.
  intros Hq. apply queue_ok_inv in Hq. unfold occupancy_of.
  apply Z.mod_pos_bound. lia.
Qed.

Lemma records_at_slot (i : Z) (q : t T) :
  records_at i q = match slot q i with
                   | Some r => Returns r q
                   | None => Undefined
                   end.
Proof.
  unfold records_at, slot.
  destruct ((0 <=? i) && (i <? Z.of_nat (length (records_ q)))); reflexivity.
Qed.

(** Every slot of a well-formed queue holds a record. *)
Lemma slot_defined (q : t T) (i : Z) :
  queue_ok q = true -> 0 <= i < size_ q -> exists r, slot q i = Some r.
Proof.
  intros Hq Hi. apply queue_ok_inv in Hq. unfold slot.
  replace ((0 <=? i) && (i <? Z.of_nat (length (records_ q)))) with true
    by (symmetry; apply andb_true_iff; lia).
  destruct (nth_error (records_ q) (Z.to_nat i)) as [r|] eqn:E.
  - now exists r.
  - apply nth_error_None in E. lia.
Qed.

Lemma physical_bounds (q : t T) (i : Z) :
  queue_ok q = true -> 0 <= physical q i < size_ q.
Proof.
  intros Hq. apply queue_ok_inv in Hq. unfold physical.
  apply Z.mod_pos_bound. lia.
Qed.

(** Within one lap the physical slot is the sum, less the capacity
    once the sum has reached it. *)
Lemma physical_one_lap (q : t T) (i : Z) :
  queue_ok q = true -> 0 <= i <= size_ q ->
  physical q i = if readIndex_ q + i >=? size_ q
                 then readIndex_ q + i - size_ q else readIndex_ q + i.
Proof.
  intros Hq Hi. apply queue_ok_inv in Hq. unfold physical.
  destruct (readIndex_ q + i >=? size_ q) eqn:E.
  - rewrite <- (Z.mod_add _ (-1)) by lia.
    rewrite Z.mod_small; lia.
  - rewrite Z.mod_small; lia.
Qed.

Lemma physical_zero (q : t T) :
  queue_ok q = true -> physical q 0 = readIndex_ q.
Proof.
  intros Hq. apply queue_ok_inv in Hq. unfold physical.
  rewrite Z.add_0_r. apply Z.mod_small. lia.
Qed.

Lemma retained_inv (q : t T) (i : Z) (r : T) :
  retained q i = Some r -> 0 <= i < occupancy_of q /\ slot q (physical q i) = Some r.
Proof.
  unfold retained.
  destruct ((0 <=? i) && (i <? occupancy_of q)) eqn:E; [|discriminate].
  apply andb_true_iff in E. intros E'. split; [lia|exact E'].
Qed.

Lemma retained_defined (q : t T) (i : Z) :
  queue_ok q = true -> 0 <= i < occupancy_of q -> exists r, retained q i = Some r.
Proof.
  intros Hq Hi. unfold retained.
  replace ((0 <=? i) && (i <? occupancy_of q)) with true
    by (symmetry; apply andb_true_iff; lia).
  apply slot_defined; [exact Hq|now apply physical_bounds].
Qed.

Lemma logical_positions_in (q : t T) (i : Z) :
  In i (logical_positions q) <-> 0 <= i < occupancy_of q.
Proof.
  unfold logical_positions. rewrite in_map_iff. split.
  - intros [n [<- Hn]]. apply in_seq in Hn. lia.
  - intros Hi. exists (Z.to_nat i). split; [lia|]. apply in_seq. lia.
Qed.

Lemma uniformly_spaced_inv (q : t T) (ts0 fpr i : Z) :
  uniformly_spaced q ts0 fpr = true -> 0 <= i < occupancy_of q ->
  exists r, retained q i = Some r
    /\ get_first_timestamp r = ts0 + i * (expected_tick_difference * fpr)
    /\ get_num_frames r = fpr.
Proof.
  intros Hu Hi. unfold uniformly_spaced in Hu.
  rewrite forallb_forall in Hu.
  specialize (Hu i (proj2 (logical_positions_in q i) Hi)).
  destruct (retained q i) as [r|]; [|discriminate].
  apply andb_true_iff in Hu. exists r. split; [reflexivity|lia].
Qed.

End QueueFacts.

(* ================================================================== *)
(** * The fast path of FixedRateQueueModel::lower_bound *)

Section FastPath.
Context {T : Type} `{ReadoutType T}.
Variable base : T -> bool -> M T Iterator.

(** The fast path, unfolded: the value it returns in terms of the
    record [r] in the slot at the read cursor. *)
Lemma fast_path_unfold (q : t T) (e r : T) :
  slot q (readIndex_ q) = Some r ->
  let timestamp := get_first_timestamp e in
  let last_ts := get_first_timestamp r in
  let fpr := get_num_frames r in
  let newest_ts := u64 (last_ts + occupancy_of q * expected_tick_difference * fpr) in
  FixedRateQueueModel.lower_bound base e false q =
    if (last_ts >? timestamp) || (timestamp >? newest_ts) then Returns IterEnd q
    else if expected_tick_difference =? 0 then Undefined
    else if fpr =? 0 then Undefined
    else
      let target_index :=
        u32 (readIndex_ q + u32 ((timestamp - last_ts) / expected_tick_difference / fpr)) in
      Returns (IterAt (if target_index >=? size_ q
                       then u32 (target_index - size_ q) else target_index)) q.
Proof.
  intros Hr timestamp last_ts fpr newest_ts.
  unfold FixedRateQueueModel.lower_bound, occupancy, end_, ret, udiv, bind, load.
  rewrite records_at_slot, Hr.
  rewrite records_at_slot, Hr.
  fold timestamp last_ts fpr.
  rewrite u64_product, u64_sum.
  fold newest_ts.
  destruct ((last_ts >? timestamp) || (timestamp >? newest_ts)) eqn:Hout; [reflexivity|].
  apply orb_false_iff in Hout. destruct Hout as [Hlo Hhi].
  destruct (expected_tick_difference =? 0) eqn:Hetd; [reflexivity|].
  rewrite records_at_slot, Hr. fold fpr.
  destruct (fpr =? 0) eqn:Hfpr; [reflexivity|].
  pose proof (get_first_timestamp_range e) as He.
  pose proof (get_first_timestamp_range r) as Hrr.
  pose proof expected_tick_difference_range as Hd.
  fold timestamp in He. fold last_ts in Hrr.
  assert (Hdiff : 0 <= timestamp - last_ts < 2 ^ 64) by lia.
  rewrite (u64_small (timestamp - last_ts)) by exact Hdiff.
  rewrite u64_to_int64.
  - reflexivity.
  - split.
    + apply Z.div_pos; lia.
    + apply Z.le_lt_trans with (timestamp - last_ts); [|lia].
      apply Z.div_le_upper_bound; nia.
Qed.
(** A target that passes the bounds check lies at most [occupancy]
    records after the read cursor, whether or not the computation of
    [newest_ts] wrapped. *)
Lemma offset_within_occupancy (occ etd fpr last_ts timestamp : Z) :
  0 <= occ -> 0 < etd -> 0 < fpr -> 0 <= last_ts < 2 ^ 64 ->
  last_ts <= timestamp <= u64 (last_ts + occ * etd * fpr) ->
  0 <= (timestamp - last_ts) / etd / fpr <= occ.
Proof.
  intros Hocc Hetd Hfpr Hlast Hin.
  apply div_div_le; try lia.
  rewrite <- u64_sum in Hin.
  assert (Hp : 0 <= occ * etd * fpr) by nia.
  pose proof (u64_range (occ * etd * fpr)) as Hr.
  pose proof (u64_le (occ * etd * fpr) Hp) as Hle.
  destruct (Z_lt_le_dec (last_ts + u64 (occ * etd * fpr)) (2 ^ 64)) as [Hs|Hs].
  - rewrite u64_small in Hin by lia. lia.
  - exfalso.
    assert (Hw : u64 (last_ts + u64 (occ * etd * fpr))
                 = last_ts + u64 (occ * etd * fpr) - 2 ^ 64).
    { unfold u64 at 1.
      rewrite <- (Z.mod_add _ (-1)) by lia.
      apply Z.mod_small. lia. }
    lia.
Qed.

(** The value of the fast path on a well-formed queue, with the
    conversions that cannot change the value removed. *)
Lemma fast_path_defined (q : t T) (e r : T) :
  queue_ok q = true ->
  slot q (readIndex_ q) = Some r ->
  0 < expected_tick_difference ->
  0 < get_num_frames r ->
  let t := get_first_timestamp e in
  let last_ts := get_first_timestamp r in
  let occ := occupancy_of q in
  let fpr := get_num_frames r in
  let newest_ts := u64 (last_ts + occ * expected_tick_difference * fpr) in
  let sum := u32 (readIndex_ q + (t - last_ts) / expected_tick_difference / fpr) in
  FixedRateQueueModel.lower_bound base e false q =
    Returns (if (t <? last_ts) || (t >? newest_ts) then IterEnd
             else IterAt (if sum >=? size_ q then sum - size_ q else sum)) q.
Proof.
  intros Hq Hr Hetd Hfpr t last_ts occ fpr newest_ts sum.
  pose proof (queue_ok_inv q Hq) as (Hsz & _ & Hrd & _).
  pose proof (occupancy_bounds q Hq) as Hocc. fold occ in Hocc.
  pose proof (get_first_timestamp_range r) as Hlast. fold last_ts in Hlast.
  rewrite (fast_path_unfold q e r Hr). cbv zeta.
  fold t last_ts fpr occ newest_ts.
  rewrite (Z.gtb_ltb last_ts t).
  destruct ((t <? last_ts) || (t >? newest_ts)) eqn:Hout; [reflexivity|].
  apply orb_false_iff in Hout. destruct Hout as [Hlo Hhi].
  replace (expected_tick_difference =? 0) with false by (symmetry; apply Z.eqb_neq; lia).
  replace (fpr =? 0) with false by (symmetry; apply Z.eqb_neq; lia).
  assert (Hoff : 0 <= (t - last_ts) / expected_tick_difference / fpr <= occ)
    by (apply offset_within_occupancy; lia).
  rewrite (u32_small ((t - last_ts) / expected_tick_difference / fpr)) by lia.
  fold sum.
  destruct (sum >=? size_ q) eqn:Hge; [|reflexivity].
  pose proof (u32_range (readIndex_ q + (t - last_ts) / expected_tick_difference / fpr)) as Hs.
  fold sum in Hs.
  rewrite u32_small by lia. reflexivity.
Qed.

(** ** C4 *)

(** C4. With [last_ts] and [fpr] those of the record [r] at the read
    cursor and [occ] the occupancy snapshot, [lower_bound(e, false)]
    returns [end()] exactly when [t < last_ts] or [t > newest_ts],
    where [newest_ts = last_ts + occ * expected_tick_difference * fpr]
    as a [uint64_t]; otherwise it returns the Iterator at
    [start_index + ((t - last_ts) / expected_tick_difference) / fpr]
    as a [uint32_t], less the capacity once the sum has reached it.
    The two reductions are the identity when the window end fits 64
    bits and [start_index + occ] fits 32 bits. *)
Theorem lower_bound_fast_path_result (q : t T) (e r : T) :
  queue_ok q = true ->
  slot q (readIndex_ q) = Some r ->
  0 < expected_tick_difference ->
  0 < get_num_frames r ->
  let t := get_first_timestamp e in
  let last_ts := get_first_timestamp r in
  let occ := occupancy_of q in
  let fpr := get_num_frames r in
  let newest_ts := u64 (last_ts + occ * expected_tick_difference * fpr) in
  let sum := u32 (readIndex_ q + (t - last_ts) / expected_tick_difference / fpr) in
  FixedRateQueueModel.lower_bound base e false q =
    Returns (if (t <? last_ts) || (t >? newest_ts) then IterEnd
             else IterAt (if sum >=? size_ q then sum - size_ q else sum)) q
  /\ (last_ts + occ * expected_tick_difference * fpr < 2 ^ 64 ->
      newest_ts = last_ts + occ * expected_tick_difference * fpr)
  /\ (readIndex_ q + occ < 2 ^ 32 -> last_ts <= t <= newest_ts ->
      sum = readIndex_ q + (t - last_ts) / expected_tick_difference / fpr).
Proof.
  intros Hq Hr Hetd Hfpr t last_ts occ fpr newest_ts sum.
  pose proof (queue_ok_inv q Hq) as (Hsz & _ & Hrd & _).
  pose proof (occupancy_bounds q Hq) as Hocc. fold occ in Hocc.
  pose proof (get_first_timestamp_range r) as Hlast. fold last_ts in Hlast.
  pose proof (get_num_frames_range r) as Hframes. fold fpr in Hframes.
  split; [|split].
  - now apply fast_path_defined.
  - intros Hfit. unfold newest_ts. apply u64_small. nia.
  - intros Hfit Hin. unfold sum. apply u32_small.
    assert (0 <= (t - last_ts) / expected_tick_difference / fpr <= occ)
      by (apply offset_within_occupancy; lia).
    lia.
Qed.

(** ** C5 *)

(** C5. On a well-formed queue (occupancy at most the capacity, read
    cursor below the capacity) and for a target that passes the bounds
    check, the record offset is at most the occupancy snapshot, so
    [start_index + record_offset < 2 * capacity], and the index of the
    returned Iterator lies in [0, capacity). *)
Theorem lower_bound_target_index_in_range (q : t T) (e r : T) :
  queue_ok q = true ->
  slot q (readIndex_ q) = Some r ->
  0 < expected_tick_difference ->
  0 < get_num_frames r ->
  let t := get_first_timestamp e in
  let last_ts := get_first_timestamp r in
  let occ := occupancy_of q in
  let fpr := get_num_frames r in
  let record_offset := (t - last_ts) / expected_tick_difference / fpr in
  last_ts <= t <= u64 (last_ts + occ * expected_tick_difference * fpr) ->
  occ <= size_ q /\ readIndex_ q < size_ q
  /\ 0 <= record_offset <= occ
  /\ readIndex_ q + record_offset < 2 * size_ q
  /\ exists target_index,
       FixedRateQueueModel.lower_bound base e false q = Returns (IterAt target_index) q
       /\ 0 <= target_index < size_ q.
Proof.
  intros Hq Hr Hetd Hfpr t last_ts occ fpr record_offset Hin.
  pose proof (queue_ok_inv q Hq) as (Hsz & _ & Hrd & _).
  pose proof (occupancy_bounds q Hq) as Hocc. fold occ in Hocc.
  pose proof (get_first_timestamp_range r) as Hlast. fold last_ts in Hlast.
  assert (Hoff : 0 <= record_offset <= occ)
    by (apply offset_within_occupancy; lia).
  repeat (split; [lia|]).
  pose proof (fast_path_defined q e r Hq Hr Hetd Hfpr) as Heq.
  cbv zeta in Heq. fold t last_ts occ fpr record_offset in Heq.
  rewrite Heq.
  replace ((t <? last_ts) || (t >? u64 (last_ts + occ * expected_tick_difference * fpr)))
    with false by (symmetry; apply orb_false_iff; lia).
  eexists. split; [reflexivity|].
  pose proof (u32_range (readIndex_ q + record_offset)) as Hs.
  assert (Hw : u32 (readIndex_ q + record_offset) < 2 * size_ q
               /\ (2 ^ 32 <= readIndex_ q + record_offset ->
                   u32 (readIndex_ q + record_offset) < size_ q)).
  { destruct (Z_lt_le_dec (readIndex_ q + record_offset) (2 ^ 32)) as [Hlt|Hwrap].
    - rewrite u32_small by lia. lia.
    - assert (Hw : u32 (readIndex_ q + record_offset)
                   = readIndex_ q + record_offset - 2 ^ 32).
      { unfold u32. rewrite <- (Z.mod_add _ (-1)) by lia. apply Z.mod_small. lia. }
      lia. }
  destruct (u32 (readIndex_ q + record_offset) >=? size_ q) eqn:Hge; lia.
Qed.

(** ** C9 *)

(** C9. On an empty buffer no record is retained and [newest_ts =
    last_ts]: [lower_bound(e, false)] returns [end()] for every target
    other than the timestamp left in the slot at the read cursor, and
    for that one value it returns the Iterator at the read cursor. *)
Theorem lower_bound_on_empty_queue (q : t T) (e r : T) :
  queue_ok q = true ->
  occupancy_of q = 0 ->
  slot q (readIndex_ q) = Some r ->
  let t := get_first_timestamp e in
  let last_ts := get_first_timestamp r in
  (forall i, retained q i = None)
  /\ u64 (last_ts + occupancy_of q * expected_tick_difference * get_num_frames r) = last_ts
  /\ (t <> last_ts ->
      FixedRateQueueModel.lower_bound base e false q = Returns IterEnd q)
  /\ (t = last_ts -> 0 < expected_tick_difference -> 0 < get_num_frames r ->
      FixedRateQueueModel.lower_bound base e false q = Returns (IterAt (readIndex_ q)) q).
Proof.
  intros Hq Hocc Hr t last_ts.
  pose proof (queue_ok_inv q Hq) as (Hsz & _ & Hrd & _).
  pose proof (get_first_timestamp_range r) as Hlast. fold last_ts in Hlast.
  assert (Hnew : u64 (last_ts + occupancy_of q * expected_tick_difference * get_num_frames r)
                 = last_ts).
  { rewrite Hocc. rewrite !Z.mul_0_l, Z.add_0_r. now apply u64_small. }
  split; [|split; [exact Hnew|split]].
  - intros i. unfold retained. rewrite Hocc.
    destruct ((0 <=? i) && (i <? 0)) eqn:E; [|reflexivity].
    apply andb_true_iff in E. lia.
  - intros Hne. rewrite (fast_path_unfold q e r Hr). cbv zeta.
    fold t last_ts. rewrite Hnew.
    replace ((last_ts >? t) || (t >? last_ts)) with true; [reflexivity|].
    symmetry. apply orb_true_iff. lia.
  - intros Heq Hetd Hfpr.
    pose proof (fast_path_defined q e r Hq Hr Hetd Hfpr) as Hres.
    cbv zeta in Hres. fold t last_ts in Hres. rewrite Hres, Hnew, Heq.
    replace ((last_ts <? last_ts) || (last_ts >? last_ts)) with false
      by (symmetry; apply orb_false_iff; lia).
    rewrite Z.sub_diag. rewrite !Z.div_0_l by lia. rewrite Z.add_0_r.
    rewrite u32_small by lia.
    replace (readIndex_ q >=? size_ q) with false by (symmetry; lia).
    reflexivity.
Qed.

(** ** C3, as amended *)

(** C3 (amended). A target below the timestamp of the record at the
    read cursor (the oldest retained record of a non-empty buffer), or
    above the end of the window the lookup assumes,
    [last_ts + occ * expected_tick_difference * fpr], makes
    [lower_bound(e, false)] return [end()]; the call raises nothing and
    divides by nothing. *)
Theorem lower_bound_outside_window_is_end (q : t T) (e r : T) :
  queue_ok q = true ->
  slot q (readIndex_ q) = Some r ->
  let t := get_first_timestamp e in
  let last_ts := get_first_timestamp r in
  t < last_ts
  \/ t > last_ts + occupancy_of q * expected_tick_difference * get_num_frames r ->
  (0 < occupancy_of q -> front q = Some r)
  /\ FixedRateQueueModel.lower_bound base e false q = Returns IterEnd q.
Proof.
  intros Hq Hr t last_ts Hout.
  pose proof (occupancy_bounds q Hq) as Hocc.
  split.
  - intros Hpos. unfold front, retained.
    replace ((0 <=? 0) && (0 <? occupancy_of q)) with true
      by (symmetry; apply andb_true_iff; lia).
    now rewrite physical_zero.
  - rewrite (fast_path_unfold q e r Hr). cbv zeta. fold t last_ts.
    pose proof (get_first_timestamp_range r) as Hlast. fold last_ts in Hlast.
    pose proof (get_first_timestamp_range e) as Ht. fold t in Ht.
    pose proof (get_num_frames_range r) as Hf.
    pose proof expected_tick_difference_range as Hd.
    match goal with |- (if ?c then _ else _) = _ => replace c with true end;
      [reflexivity|].
    symmetry. apply orb_true_iff.
    destruct Hout as [Hlo|Hhi]; [left; lia|right].
    rewrite u64_small; [lia|]. nia.
Qed.
(** ** C7 *)

Lemma read_only_ret {A} (a : A) : read_only (T := T) (ret a).
Proof. intros q a' q' E. unfold ret in E. now inversion E. Qed.

Lemma read_only_load {A} (field : t T -> A) : read_only (load field).
Proof. intros q a q' E. unfold load in E. now inversion E. Qed.

Lemma read_only_records_at (i : Z) : read_only (T := T) (records_at i).
Proof.
  intros q a q' E. rewrite records_at_slot in E.
  destruct (slot q i); now inversion E.
Qed.

Lemma read_only_udiv (a b : Z) : read_only (T := T) (udiv a b).
Proof.
  intros q x q' E. unfold udiv in E.
  destruct (b =? 0); now inversion E.
Qed.

Lemma read_only_bind {A B} (m : M T A) (k : A -> M T B) :
  read_only m -> (forall a, read_only (k a)) -> read_only (bind m k).
Proof.
  intros Hm Hk q b q' E. unfold bind in E.
  destruct (m q) as [a q1|] eqn:Em; [|discriminate].
  apply Hm in Em. subst q1. now apply (Hk a) in E.
Qed.

Lemma read_only_if {A} (c : bool) (m1 m2 : M T A) :
  read_only m1 -> read_only m2 -> read_only (if c then m1 else m2).
Proof. now destruct c. Qed.

Lemma read_only_fast_path (e : T) :
  read_only (FixedRateQueueModel.lower_bound base e false).
Proof.
  unfold FixedRateQueueModel.lower_bound, occupancy, end_.
  repeat first
    [ apply read_only_bind; [|intro]
    | apply read_only_if
    | apply read_only_load
    | apply read_only_records_at
    | apply read_only_udiv
    | apply read_only_ret ].
Qed.

(** C7. [lower_bound(e, false)] mutates nothing: whenever it returns,
    the queue (read cursor, write cursor, stored records, capacity) is
    the one it was called on; and on a well-formed queue with positive
    tick spacing and frame count it does return. *)
Theorem lower_bound_leaves_queue_unchanged (q : t T) (e : T) :
  (forall it q', FixedRateQueueModel.lower_bound base e false q = Returns it q' ->
                 q' = q
                 /\ readIndex_ q' = readIndex_ q /\ writeIndex_ q' = writeIndex_ q
                 /\ records_ q' = records_ q /\ size_ q' = size_ q)
  /\ (queue_ok q = true -> 0 < expected_tick_difference ->
      (forall r, slot q (readIndex_ q) = Some r -> 0 < get_num_frames r) ->
      exists it, FixedRateQueueModel.lower_bound base e false q = Returns it q).
Proof.
  split.
  - intros it q' E. apply read_only_fast_path in E. subst q'. repeat split.
  - intros Hq Hetd Hfpr.
    pose proof (queue_ok_inv q Hq) as (_ & _ & Hrd & _).
    destruct (slot_defined q (readIndex_ q) Hq Hrd) as [r Hr].
    pose proof (fast_path_defined q e r Hq Hr Hetd (Hfpr r Hr)) as Hres.
    eexists. exact Hres.
Qed.

(** ** C6 *)

(** C6. With [with_errors = true] the lookup is the inherited one:
    [lower_bound(e, true)] is the result of
    [BinarySearchQueueModel::lower_bound(e, true)] on every queue,
    whatever the inherited lookup does; in particular the shipped
    class answers with the error-tolerant scan of its base class, and
    no step of the fast path takes part in it. *)
Theorem lower_bound_with_errors_delegates (q : t T) (e : T) :
  FixedRateQueueModel.lower_bound base e true q = base e true q
  /\ forall trustworthy : T -> bool,
       FixedRateQueueModel.lookup trustworthy e true q
       = BinarySearchQueueModel.lower_bound trustworthy e true q.
Proof. split; [reflexivity|intros trustworthy; reflexivity]. Qed.

End FastPath.

(* ================================================================== *)
(** * The binary search of the base class *)

Section BinarySearch.
Context {T : Type} `{ReadoutType T}.
Variable trustworthy : T -> bool.

Lemma logical_at_retained (q : t T) (i : Z) (r : T) :
  retained q i = Some r -> BinarySearchQueueModel.logical_at i q = Returns r q.
Proof.
  intros Hr. apply retained_inv in Hr. destruct Hr as [_ Hs].
  unfold BinarySearchQueueModel.logical_at, bind, load.
  rewrite records_at_slot. unfold physical in Hs. now rewrite Hs.
Qed.

(** The halving loop on retained records whose timestamps [ts] do not
    decrease: it ends at the leftmost position of [lo .. hi] from which
    the timestamps are at least the target. *)
Lemma search_leftmost (q : t T) (ts : Z -> Z) (target : Z) :
  (forall i, 0 <= i < occupancy_of q ->
             exists r, retained q i = Some r /\ get_first_timestamp r = ts i) ->
  (forall i j, 0 <= i <= j -> j < occupancy_of q -> ts i <= ts j) ->
  forall (steps : nat) (lo hi : Z),
    0 <= lo <= hi -> hi <= occupancy_of q -> hi - lo <= Z.of_nat steps ->
    exists k, BinarySearchQueueModel.search steps target lo hi q = Returns k q
      /\ lo <= k <= hi
      /\ (forall i, lo <= i < k -> ts i < target)
      /\ (k < hi -> target <= ts k).
Proof.
  intros Hts Hmono. induction steps as [|steps IH]; intros lo hi Hlo Hhi Hsteps.
  - exists lo. cbn. unfold ret. repeat split; lia.
  - cbn [BinarySearchQueueModel.search].
    destruct (lo <? hi) eqn:Hlt.
    + set (mid := lo + (hi - lo) / 2).
      assert (Hmid : lo <= mid < hi).
      { unfold mid. pose proof (Z.div_pos (hi - lo) 2).
        assert ((hi - lo) / 2 < hi - lo) by (apply Z.div_lt; lia). lia. }
      destruct (Hts mid ltac:(lia)) as (r & Hr & Hrts).
      unfold bind at 1. rewrite (logical_at_retained q mid r Hr). rewrite Hrts.
      destruct (ts mid <? target) eqn:Hcmp.
      * destruct (IH (mid + 1) hi) as (k & Hk & Hrange & Hbelow & Hat); try lia.
        exists k. split; [exact Hk|]. split; [lia|]. split; [|exact Hat].
        intros i Hi. destruct (Z_lt_le_dec i (mid + 1)) as [Hle|Hge].
        -- pose proof (Hmono i mid ltac:(lia) ltac:(lia)). lia.
        -- apply Hbelow. lia.
      * destruct (IH lo mid) as (k & Hk & Hrange & Hbelow & Hat); try lia.
        exists k. split; [exact Hk|]. split; [lia|]. split; [exact Hbelow|].
        intros _. destruct (Z.eq_dec k mid) as [->|Hne]; [lia|].
        apply Hat. lia.
    + exists lo. unfold ret. repeat split; lia.
Qed.

End BinarySearch.

(* ================================================================== *)
(** * Both lookups on uniformly spaced data *)

Section UniformData.
Context {T : Type} `{ReadoutType T}.
Variable base : T -> bool -> M T Iterator.
Variable trustworthy : T -> bool.

(** What the hypotheses on a uniformly spaced buffer give: it is not
    empty, its oldest record sits at the read cursor, and its newest
    record starts [occupancy - 1] record spans later. *)
Lemma uniform_window (q : t T) (f b : T) (fpr : Z) :
  queue_ok q = true ->
  uniformly_spaced q (get_first_timestamp f) fpr = true ->
  front q = Some f -> back q = Some b ->
  0 < occupancy_of q
  /\ slot q (readIndex_ q) = Some f
  /\ get_num_frames f = fpr
  /\ get_first_timestamp b
     = get_first_timestamp f + (occupancy_of q - 1) * (expected_tick_difference * fpr).
Proof.
  intros Hq Hu Hf Hb.
  unfold front in Hf. unfold back in Hb.
  pose proof (retained_inv q 0 f Hf) as [Hocc Hslot].
  rewrite physical_zero in Hslot by exact Hq.
  destruct (uniformly_spaced_inv q _ fpr 0 Hu Hocc) as (r0 & Hr0 & _ & Hfr).
  rewrite Hf in Hr0. inversion Hr0; subst r0.
  destruct (uniformly_spaced_inv q _ fpr (occupancy_of q - 1) Hu ltac:(lia))
    as (r1 & Hr1 & Hts & _).
  rewrite Hb in Hr1. inversion Hr1; subst r1.
  repeat split; try assumption; lia.
Qed.

(** On uniformly spaced data the fast path lands on the record whose
    span of ticks contains the target. *)
Lemma fast_path_uniform (q : t T) (e f b : T) (fpr : Z) :
  queue_ok q = true ->
  0 < expected_tick_difference -> 0 < fpr ->
  uniformly_spaced q (get_first_timestamp f) fpr = true ->
  front q = Some f -> back q = Some b ->
  get_first_timestamp f + occupancy_of q * expected_tick_difference * fpr < 2 ^ 64 ->
  2 * size_ q <= 2 ^ 32 ->
  get_first_timestamp f <= get_first_timestamp e <= get_first_timestamp b ->
  let span := expected_tick_difference * fpr in
  let k := (get_first_timestamp e - get_first_timestamp f) / span in
  0 <= k < occupancy_of q
  /\ FixedRateQueueModel.lower_bound base e false q = Returns (IterAt (physical q k)) q.
Proof.
  intros Hq Hetd Hfpr Hu Hf Hb Hfit Hcap Hin span k.
  destruct (uniform_window q f b fpr Hq Hu Hf Hb) as (Hocc & Hslot & Hfr & Hbts).
  pose proof (queue_ok_inv q Hq) as (Hsz & _ & Hrd & _).
  pose proof (occupancy_bounds q Hq) as Hob.
  set (x := get_first_timestamp e - get_first_timestamp f) in *.
  assert (Hspan : 0 < span) by (unfold span; nia).
  assert (Hx : 0 <= x <= (occupancy_of q - 1) * span) by (unfold x, span; lia).
  assert (Hk : 0 <= k < occupancy_of q).
  { unfold k. split; [apply Z.div_pos; lia|].
    apply Z.div_lt_upper_bound; [lia|]. nia. }
  split; [exact Hk|].
  rewrite (fast_path_defined base q e f Hq Hslot Hetd ltac:(lia)). cbv zeta.
  rewrite Hfr. fold x.
  rewrite (u64_small (get_first_timestamp f + occupancy_of q * expected_tick_difference * fpr)).
  2:{ pose proof (get_first_timestamp_range f). nia. }
  replace ((get_first_timestamp e <? get_first_timestamp f)
           || (get_first_timestamp e
               >? get_first_timestamp f + occupancy_of q * expected_tick_difference * fpr))
    with false by (symmetry; apply orb_false_iff; unfold span in *; nia).
  rewrite Z.div_div by lia. fold span. fold k.
  rewrite u32_small by lia.
  rewrite (physical_one_lap q k Hq) by lia.
  reflexivity.
Qed.

(** On uniformly spaced data the binary search lands on the first
    record that starts at or after the target. *)
Lemma binary_search_uniform (q : t T) (e f b : T) (fpr : Z) :
  queue_ok q = true ->
  0 < expected_tick_difference -> 0 < fpr ->
  uniformly_spaced q (get_first_timestamp f) fpr = true ->
  front q = Some f -> back q = Some b ->
  get_first_timestamp f <= get_first_timestamp e <= get_first_timestamp b ->
  let span := expected_tick_difference * fpr in
  let x := get_first_timestamp e - get_first_timestamp f in
  let k := if x mod span =? 0 then x / span else x / span + 1 in
  0 <= k < occupancy_of q
  /\ BinarySearchQueueModel.lower_bound trustworthy e false q
     = Returns (IterAt (physical q k)) q.
Proof.
  intros Hq Hetd Hfpr Hu Hf Hb Hin span x k.
  destruct (uniform_window q f b fpr Hq Hu Hf Hb) as (Hocc & Hslot & Hfr & Hbts).
  pose proof (occupancy_bounds q Hq) as Hob.
  assert (Hspan : 0 < span) by (unfold span; nia).
  set (ts := fun i => get_first_timestamp f + i * span).
  assert (Hts : forall i, 0 <= i < occupancy_of q ->
                exists r, retained q i = Some r /\ get_first_timestamp r = ts i).
  { intros i Hi. destruct (uniformly_spaced_inv q _ fpr i Hu Hi) as (r & Hr & Hrt & _).
    exists r. split; [exact Hr|exact Hrt]. }
  assert (Hmono : forall i j, 0 <= i <= j -> j < occupancy_of q -> ts i <= ts j)
    by (intros i j Hij _; unfold ts; nia).
  destruct (search_leftmost q ts (get_first_timestamp e) Hts Hmono
              (Z.to_nat (occupancy_of q)) 0 (occupancy_of q))
    as (k' & Hsearch & Hrange & Hbelow & Hat); try lia.
  assert (Hk'occ : k' < occupancy_of q).
  { destruct (Z.eq_dec k' (occupancy_of q)) as [Heq|Hne]; [|lia].
    specialize (Hbelow (occupancy_of q - 1) ltac:(lia)). unfold ts in Hbelow. lia. }
  specialize (Hat Hk'occ). unfold ts in Hat.
  assert (Hprev : 0 < k' -> get_first_timestamp f + (k' - 1) * span < get_first_timestamp e).
  { intros Hpos. apply (Hbelow (k' - 1)). lia. }
  pose proof (Z.div_mod x span ltac:(lia)) as Hdm.
  pose proof (Z.mod_pos_bound x span Hspan) as Hm.
  assert (Hk : k' = k).
  { unfold k. destruct (x mod span =? 0) eqn:Hal.
    - assert (x = span * (x / span)) by lia. unfold x in *. nia.
    - assert (0 < x mod span) by lia. unfold x in *. nia. }
  subst k'. split; [lia|].
  unfold BinarySearchQueueModel.lower_bound, bind at 1, occupancy, load.
  replace (occupancy_of q <=? 0) with false by (symmetry; lia).
  unfold bind at 1. rewrite (logical_at_retained q 0 f Hf).
  unfold bind at 1. rewrite (logical_at_retained q _ b Hb).
  replace ((get_first_timestamp e <? get_first_timestamp f)
           || (get_first_timestamp b <? get_first_timestamp e))
    with false by (symmetry; apply orb_false_iff; lia).
  unfold bind at 1. rewrite Hsearch.
  reflexivity.
Qed.
(** ** C1, as amended *)

(** C1 (amended). On a buffer of uniformly spaced records (record [i]
    after the read cursor starts [i * expected_tick_difference * fpr]
    ticks after the oldest and carries [fpr] frames; the window end fits
    64 bits and the capacity is at most 2^31), for every target between
    the oldest and the newest retained timestamp, [lower_bound(e, false)]
    returns the Iterator at the retained record with the largest first
    timestamp that is at most the target (the record whose ticks contain
    the target).  When the target is the first timestamp of a retained
    record, this is the record with the smallest first timestamp at
    least the target. *)
Theorem lower_bound_uniform_largest_at_most (q : t T) (e f b : T) (fpr : Z) :
  queue_ok q = true ->
  0 < expected_tick_difference -> 0 < fpr ->
  uniformly_spaced q (get_first_timestamp f) fpr = true ->
  front q = Some f -> back q = Some b ->
  get_first_timestamp f + occupancy_of q * expected_tick_difference * fpr < 2 ^ 64 ->
  2 * size_ q <= 2 ^ 32 ->
  get_first_timestamp f <= get_first_timestamp e <= get_first_timestamp b ->
  exists it,
    FixedRateQueueModel.lower_bound base e false q = Returns it q
    /\ largest_at_most q (get_first_timestamp e) it
    /\ ((exists i r', retained q i = Some r'
                      /\ get_first_timestamp r' = get_first_timestamp e) ->
        smallest_at_least q (get_first_timestamp e) it).
Proof.
  intros Hq Hetd Hfpr Hu Hf Hb Hfit Hcap Hin.
  destruct (fast_path_uniform q e f b fpr Hq Hetd Hfpr Hu Hf Hb Hfit Hcap Hin)
    as (Hk & Hres).
  set (span := expected_tick_difference * fpr) in *.
  set (x := get_first_timestamp e - get_first_timestamp f) in *.
  set (k := x / span) in *.
  assert (Hspan : 0 < span) by (unfold span; nia).
  pose proof (Z.div_mod x span ltac:(lia)) as Hdm.
  pose proof (Z.mod_pos_bound x span Hspan) as Hm.
  fold k in Hdm.
  destruct (uniformly_spaced_inv q _ fpr k Hu Hk) as (r & Hr & Hrts & _).
  fold span in Hrts.
  assert (Hall : forall i r', retained q i = Some r' ->
                 0 <= i < occupancy_of q
                 /\ get_first_timestamp r' = get_first_timestamp f + i * span).
  { intros i r' Hr'. pose proof (retained_inv q i r' Hr') as [Hi _].
    destruct (uniformly_spaced_inv q _ fpr i Hu Hi) as (r'' & Hr'' & Hts & _).
    rewrite Hr' in Hr''. inversion Hr''; subst r''. split; [exact Hi|exact Hts]. }
  assert (Hfloor : k * span <= x) by (apply quotient_times_le; unfold x; lia).
  exists (IterAt (physical q k)). split; [exact Hres|]. split.
  - exists k, r. repeat split; try assumption.
    + unfold x in Hfloor. lia.
    + intros i r' Hr' Hle. destruct (Hall i r' Hr') as [Hi Hts].
      assert (Hik : i <= k) by (apply multiple_below_quotient; unfold x; lia).
      rewrite Hts, Hrts. apply Zplus_le_compat_l.
      apply Z.mul_le_mono_nonneg_r; lia.
  - intros (i & r' & Hr' & Heq). destruct (Hall i r' Hr') as [Hi Hts].
    assert (Hik : i = k).
    { unfold k. replace x with (i * span) by (unfold x; lia).
      symmetry. apply Z.div_mul. lia. }
    subst i. rewrite Hr in Hr'. inversion Hr'; subst r'.
    exists (physical q k), r. split; [reflexivity|].
    split; [exact (proj2 (retained_inv q k r Hr))|].
    split; [lia|]. intros j r'' _ Hge. lia.
Qed.

(** ** C2, as amended *)

(** C2 (amended). On a buffer of uniformly spaced records and for a
    target between the oldest and the newest retained timestamp, the
    fast path returns the position of the record whose ticks contain
    the target and the binary search the position of the first record
    starting at or after it: the two agree exactly when the target is
    the first timestamp of a retained record, and are one position
    apart otherwise. *)
Theorem fast_path_agrees_with_binary_search_iff_aligned (q : t T) (e f b : T) (fpr : Z) :
  queue_ok q = true ->
  0 < expected_tick_difference -> 0 < fpr ->
  uniformly_spaced q (get_first_timestamp f) fpr = true ->
  front q = Some f -> back q = Some b ->
  get_first_timestamp f + occupancy_of q * expected_tick_difference * fpr < 2 ^ 64 ->
  2 * size_ q <= 2 ^ 32 ->
  get_first_timestamp f <= get_first_timestamp e <= get_first_timestamp b ->
  let span := expected_tick_difference * fpr in
  let x := get_first_timestamp e - get_first_timestamp f in
  FixedRateQueueModel.lower_bound base e false q
    = Returns (IterAt (physical q (x / span))) q
  /\ BinarySearchQueueModel.lower_bound trustworthy e false q
    = Returns (IterAt (physical q (if x mod span =? 0 then x / span else x / span + 1))) q
  /\ (FixedRateQueueModel.lower_bound base e false q
      = BinarySearchQueueModel.lower_bound trustworthy e false q
      <-> x mod span = 0).
Proof.
  intros Hq Hetd Hfpr Hu Hf Hb Hfit Hcap Hin span x.
  destruct (fast_path_uniform q e f b fpr Hq Hetd Hfpr Hu Hf Hb Hfit Hcap Hin)
    as (Hk & Hfast).
  destruct (binary_search_uniform q e f b fpr Hq Hetd Hfpr Hu Hf Hb Hin)
    as (Hk' & Hbs).
  fold span x in Hk, Hfast, Hk', Hbs.
  pose proof (occupancy_bounds q Hq) as Hob.
  split; [exact Hfast|]. split; [exact Hbs|].
  rewrite Hfast, Hbs.
  destruct (x mod span =? 0) eqn:Hal.
  - split; [lia|reflexivity].
  - split; [|lia]. intros E. inversion E as [Hphys]. exfalso.
    rewrite (physical_one_lap q (x / span) Hq) in Hphys by lia.
    rewrite (physical_one_lap q (x / span + 1) Hq) in Hphys by lia.
    destruct (readIndex_ q + x / span >=? size_ q) eqn:E1;
      destruct (readIndex_ q + (x / span + 1) >=? size_ q) eqn:E2; lia.
Qed.

End UniformData.

(* ================================================================== *)
(** * The lookups on the example queues *)

Import Example.

(** The shipped fast path on the wrapped buffer: target 145 lies two
    records after the read cursor at slot 2, which wraps to slot 0. *)
Lemma lower_bound_fast_path_result_witness :
  queue_ok wrapped_records = true
  /\ slot wrapped_records (readIndex_ wrapped_records) = Some (frame 100)
  /\ FixedRateQueueModel.lookup trust_all (frame 145) false wrapped_records
     = Returns (IterAt 0) wrapped_records.
Proof.
  split; [reflexivity|]. split; [reflexivity|].
  refine (proj1
    (lower_bound_fast_path_result (BinarySearchQueueModel.lower_bound trust_all)
       wrapped_records (frame 145) (frame 100) _ _ _ _)); reflexivity.
Defined.

Lemma lower_bound_target_index_in_range_witness :
  queue_ok wrapped_records = true
  /\ exists target_index,
       FixedRateQueueModel.lookup trust_all (frame 145) false wrapped_records
       = Returns (IterAt target_index) wrapped_records
       /\ 0 <= target_index < size_ wrapped_records.
Proof.
  split; [reflexivity|].
  refine (proj2 (proj2 (proj2 (proj2
    (lower_bound_target_index_in_range (BinarySearchQueueModel.lower_bound trust_all)
       wrapped_records (frame 145) (frame 100) _ _ _ _ _)))));
    try reflexivity.
  vm_compute. split; discriminate.
Defined.

Lemma lower_bound_on_empty_queue_witness :
  occupancy_of drained = 0
  /\ FixedRateQueueModel.lookup trust_all (frame 140) false drained
     = Returns (IterAt 2) drained
  /\ FixedRateQueueModel.lookup trust_all (frame 141) false drained
     = Returns IterEnd drained.
Proof.
  split; [reflexivity|].
  split.
  - refine (proj2 (proj2 (proj2
      (lower_bound_on_empty_queue (BinarySearchQueueModel.lower_bound trust_all)
         drained (frame 140) (frame 140) _ _ _))) _ _ _);
      reflexivity.
  - refine (proj1 (proj2 (proj2
      (lower_bound_on_empty_queue (BinarySearchQueueModel.lower_bound trust_all)
         drained (frame 141) (frame 140) _ _ _))) _);
      try reflexivity.
    vm_compute. discriminate.
Defined.

Lemma lower_bound_outside_window_is_end_witness :
  queue_ok three_records = true
  /\ get_first_timestamp (frame 161)
     > get_first_timestamp (frame 100)
       + occupancy_of three_records * expected_tick_difference * get_num_frames (frame 100)
  /\ FixedRateQueueModel.lookup trust_all (frame 161) false three_records
     = Returns IterEnd three_records.
Proof.
  split; [reflexivity|]. split; [reflexivity|].
  refine (proj2
    (lower_bound_outside_window_is_end (BinarySearchQueueModel.lower_bound trust_all)
       three_records (frame 161) (frame 100) _ _ _)); try reflexivity.
  right. reflexivity.
Defined.

Lemma lower_bound_leaves_queue_unchanged_witness :
  queue_ok three_records = true
  /\ exists it,
       FixedRateQueueModel.lookup trust_all (frame 110) false three_records
       = Returns it three_records.
Proof.
  split; [reflexivity|].
  refine (proj2
    (lower_bound_leaves_queue_unchanged (BinarySearchQueueModel.lower_bound trust_all)
       three_records (frame 110)) _ _ _); try reflexivity.
  intros r Hr. vm_compute in Hr. inversion Hr. reflexivity.
Defined.

Lemma lower_bound_uniform_largest_at_most_witness :
  uniformly_spaced three_records (get_first_timestamp (frame 100)) 2 = true
  /\ exists it,
       FixedRateQueueModel.lookup trust_all (frame 130) false three_records
       = Returns it three_records
       /\ largest_at_most three_records (get_first_timestamp (frame 130)) it.
Proof.
  split; [reflexivity|].
  assert (Hthm := lower_bound_uniform_largest_at_most
                    (BinarySearchQueueModel.lower_bound trust_all)
                    three_records (frame 130) (frame 100) (frame 140) 2).
  destruct Hthm as (it & Hres & Hlargest & _); try reflexivity.
  - vm_compute. discriminate.
  - vm_compute. split; discriminate.
  - exists it. split; [exact Hres|exact Hlargest].
Defined.

Lemma fast_path_agrees_with_binary_search_iff_aligned_witness :
  uniformly_spaced three_records (get_first_timestamp (frame 100)) 2 = true
  /\ FixedRateQueueModel.lookup trust_all (frame 120) false three_records
     = BinarySearchQueueModel.lower_bound trust_all (frame 120) false three_records.
Proof.
  split; [reflexivity|].
  refine (proj2 (proj2 (proj2
    (fast_path_agrees_with_binary_search_iff_aligned
       (BinarySearchQueueModel.lower_bound trust_all) trust_all
       three_records (frame 120) (frame 100) (frame 140) 2
       _ _ _ _ _ _ _ _ _))) _); try reflexivity.
  - vm_compute. discriminate.
  - vm_compute. split; discriminate.
Defined.

(** ** C1, C2 and C3 as stated *)

(** C1 as stated fails: three records start at ticks 100, 120 and 140,
    the target 110 lies between the oldest and the newest, and the fast
    path returns slot 0, whose record starts at 100, below the target;
    the smallest retained timestamp at least 110 is 120.  On records
    that start at 100, 105 and 300 the target 300, the newest retained
    timestamp, is answered with the sentinel. *)
Lemma lower_bound_not_smallest_at_least :
  (queue_ok three_records = true
   /\ non_decreasing three_records = true
   /\ front three_records = Some (frame 100)
   /\ back three_records = Some (frame 140)
   /\ get_first_timestamp (frame 100) <= get_first_timestamp (frame 110)
      <= get_first_timestamp (frame 140)
   /\ FixedRateQueueModel.lookup trust_all (frame 110) false three_records
      = Returns (IterAt 0) three_records
   /\ ~ smallest_at_least three_records (get_first_timestamp (frame 110)) (IterAt 0))
  /\ (queue_ok uneven_records = true
      /\ non_decreasing uneven_records = true
      /\ front uneven_records = Some (frame 100)
      /\ back uneven_records = Some (frame 300)
      /\ FixedRateQueueModel.lookup trust_all (frame 300) false uneven_records
         = Returns IterEnd uneven_records
      /\ ~ smallest_at_least uneven_records (get_first_timestamp (frame 300)) IterEnd).
Proof.
  split.
  - repeat (split; [reflexivity|]).
    split; [vm_compute; split; discriminate|].
    split; [reflexivity|].
    intros (idx & r & Hit & Hslot & Hge & _).
    inversion Hit; subst idx.
    vm_compute in Hslot. inversion Hslot; subst r.
    vm_compute in Hge. apply Hge. reflexivity.
  - repeat (split; [reflexivity|]).
    intros (idx & r & Hit & _). discriminate.
Qed.

(** C2 as stated fails: on the same uniformly spaced buffer and for the
    target 110 the fast path returns slot 0 and the binary search
    slot 1. *)
Lemma fast_path_differs_from_binary_search :
  queue_ok three_records = true
  /\ uniformly_spaced three_records (get_first_timestamp (frame 100)) 2 = true
  /\ front three_records = Some (frame 100)
  /\ back three_records = Some (frame 140)
  /\ get_first_timestamp (frame 100) <= get_first_timestamp (frame 110)
     <= get_first_timestamp (frame 140)
  /\ FixedRateQueueModel.lookup trust_all (frame 110) false three_records
     = Returns (IterAt 0) three_records
  /\ BinarySearchQueueModel.lower_bound trust_all (frame 110) false three_records
     = Returns (IterAt 1) three_records
  /\ FixedRateQueueModel.lookup trust_all (frame 110) false three_records
     <> BinarySearchQueueModel.lower_bound trust_all (frame 110) false three_records.
Proof.
  repeat (split; [reflexivity|]).
  split; [vm_compute; split; discriminate|].
  split; [reflexivity|]. split; [reflexivity|].
  vm_compute. discriminate.
Qed.

(** C3 as stated fails: the newest retained record starts at 140, the
    target 150 is greater, and the fast path returns slot 2 and not the
    sentinel. *)
Lemma lower_bound_beyond_newest_record_not_end :
  queue_ok three_records = true
  /\ back three_records = Some (frame 140)
  /\ get_first_timestamp (frame 150) > get_first_timestamp (frame 140)
  /\ FixedRateQueueModel.lookup trust_all (frame 150) false three_records
     = Returns (IterAt 2) three_records
  /\ FixedRateQueueModel.lookup trust_all (frame 150) false three_records
     <> Returns IterEnd three_records.
Proof.
  repeat (split; [reflexivity|]).
  vm_compute. discriminate.
Qed.

(* ================================================================== *)
(** * The worker loop of the recorder *)

Section Recorder.
Variable T : Type.
Variable BufferedFileWriter : Type.
Variable write : BufferedFileWriter -> T -> bool * BufferedFileWriter.
Variable flush : BufferedFileWriter -> BufferedFileWriter.

Local Abbreviation state := (RecorderModel.state BufferedFileWriter).
Local Abbreviation pass := (RecorderModel.pass T).
Local Abbreviation body := (RecorderModel.body T BufferedFileWriter write).
Local Abbreviation loop := (RecorderModel.loop T BufferedFileWriter write).
Local Abbreviation do_work := (RecorderModel.do_work T BufferedFileWriter write flush).
Local Abbreviation timed_out := (RecorderModel.timed_out T).
Local Abbreviation marker_cleared := (RecorderModel.marker_cleared T).
Local Abbreviation write_refused := (RecorderModel.write_refused T BufferedFileWriter write).
Local Abbreviation m_buffered_writer := (RecorderModel.m_buffered_writer BufferedFileWriter).

Lemma loop_timed_out (p : pass) (schedule : list pass) (s : state) :
  timed_out p = true -> loop (p :: schedule) s = loop schedule s.
Proof.
  intros Hp. unfold RecorderModel.timed_out in Hp.
  apply andb_true_iff in Hp. destruct Hp as [Hrun Hpop].
  cbn [RecorderModel.loop]. rewrite Hrun.
  destruct (RecorderModel.pop T p); [discriminate|reflexivity].
Qed.

Lemma loop_only_timeouts (schedule : list pass) (s : state) :
  forallb timed_out schedule = true -> loop schedule s = (None, s).
Proof.
  induction schedule as [|p schedule IH]; intros Hall; [reflexivity|].
  cbn [forallb] in Hall. apply andb_true_iff in Hall. destruct Hall as [Hp Hrest].
  rewrite loop_timed_out by exact Hp. now apply IH.
Qed.

(** The loop is left only at a pass that finds the run marker cleared
    or whose record the writer refuses. *)
Lemma loop_exit_cause (schedule : list pass) :
  forall (s s' : state) (e : RecorderModel.exit),
    loop schedule s = (Some e, s') ->
    exists before p after s1,
      schedule = before ++ p :: after
      /\ loop before s = (None, s1)
      /\ ((e = RecorderModel.RunMarkerCleared /\ marker_cleared p = true /\ s' = s1)
          \/ (e = RecorderModel.WriteFailed
              /\ write_refused p (m_buffered_writer s1) = true)).
Proof.
  induction schedule as [|p schedule IH]; intros s s' e Hloop; [discriminate|].
  cbn [RecorderModel.loop] in Hloop.
  destruct (RecorderModel.run_marker T p) eqn:Hrun.
  - destruct (body (RecorderModel.pop T p) s) as [[|] s1] eqn:Hbody.
    + destruct (IH s1 s' e Hloop) as (before & p' & after & s2 & Hsplit & Hpre & Hcause).
      exists (p :: before), p', after, s2.
      split; [now rewrite Hsplit|]. split; [|exact Hcause].
      cbn [RecorderModel.loop]. now rewrite Hrun, Hbody.
    + inversion Hloop; subst e s'. clear Hloop.
      exists [], p, schedule, s. split; [reflexivity|]. split; [reflexivity|].
      right. split; [reflexivity|].
      unfold RecorderModel.write_refused. rewrite Hrun.
      unfold RecorderModel.body in Hbody.
      destruct (RecorderModel.pop T p) as [element|]; [|discriminate].
      destruct (write (m_buffered_writer s) element) as [ok w].
      destruct ok; [discriminate|reflexivity].
  - inversion Hloop; subst e s'. clear Hloop.
    exists [], p, schedule, s. split; [reflexivity|]. split; [reflexivity|].
    left. split; [reflexivity|]. split; [|reflexivity].
    unfold RecorderModel.marker_cleared. now rewrite Hrun.
Qed.

(** C8. In [do_work], a [pop] that times out leaves both packet
    counters and the writer as they were and continues with the next
    pass of the loop; passes that time out never end the loop; and the
    loop is left only at a pass that finds the run marker cleared or at
    one whose write to the output file fails. *)
Theorem do_work_timeout_is_recoverable :
  (forall s : state,
     body (RecorderModel.QueueTimeoutExpired T) s = (RecorderModel.Continue, s))
  /\ (forall (p : pass) (schedule : list pass) (s : state),
        timed_out p = true ->
        loop (p :: schedule) s = loop schedule s
        /\ do_work (p :: schedule) s = do_work schedule s)
  /\ (forall (schedule : list pass) (s : state),
        forallb timed_out schedule = true -> do_work schedule s = (None, s))
  /\ (forall (schedule : list pass) (s s' : state) (e : RecorderModel.exit),
        do_work schedule s = (Some e, s') ->
        exists before p after s1,
          schedule = before ++ p :: after
          /\ loop before s = (None, s1)
          /\ ((e = RecorderModel.RunMarkerCleared /\ marker_cleared p = true)
              \/ (e = RecorderModel.WriteFailed
                  /\ write_refused p (m_buffered_writer s1) = true))).
Proof.
  split; [reflexivity|]. split; [|split].
  - intros p schedule s Hp. split.
    + now apply loop_timed_out.
    + unfold RecorderModel.do_work. now rewrite loop_timed_out.
  - intros schedule s Hall. unfold RecorderModel.do_work.
    now rewrite loop_only_timeouts.
  - intros schedule s s' e Hwork. unfold RecorderModel.do_work in Hwork.
    destruct (loop schedule s) as [[e'|] s2] eqn:Hloop; [|discriminate].
    inversion Hwork; subst e'. clear Hwork.
    destruct (loop_exit_cause schedule s s2 e Hloop)
      as (before & p & after & s1 & Hsplit & Hpre & Hcause).
    exists before, p, after, s1. split; [exact Hsplit|]. split; [exact Hpre|].
    destruct Hcause as [(He & Hm & _)|Hw]; [left; now split|right; exact Hw].
Qed.

End Recorder.

(** A recorder of natural numbers whose file is the list of the numbers
    written and refuses the number 0; two timed-out passes, then the
    marker is cleared: nothing is counted or written. *)
Lemma do_work_timeout_is_recoverable_witness :
  RecorderModel.do_work nat (list nat)
    (fun file n => (negb (Nat.eqb n 0), file ++ [n])) (fun file => file)
    [RecorderModel.Pass nat true (RecorderModel.QueueTimeoutExpired nat);
     RecorderModel.Pass nat true (RecorderModel.QueueTimeoutExpired nat)]
    (RecorderModel.State (list nat) [] 0 0 0)
  = (None, RecorderModel.State (list nat) [] 0 0 0).
Proof.
  refine (proj1 (proj2 (proj2
    (do_work_timeout_is_recoverable nat (list nat)
       (fun file n => (negb (Nat.eqb n 0), file ++ [n])) (fun file => file))))
    _ _ _).
  reflexivity.
Defined.


(* ================================================================== *)
(** * The dropout table and the producer loop of the source emulator *)

Section SourceEmulator.
Import SourceEmulatorModel.

(** A rate that compares equal to [0.0] is below every draw that is at
    least [0.0]. *)
Lemma draw_ge_zero_rate (rate d : double) :
  eq rate zero = true -> ge d zero = true -> ge d rate = true.
Proof.
  unfold eq, ge, zero, SFeqb, SFleb.
  destruct rate as [[]|[]| |[] mr er]; destruct d as [[]|[]| |[] md ed];
    cbn; intros; try discriminate; reflexivity.
Qed.

Lemma conf_dropouts_zero_rate (rate : double) (population : nat) (dis : nat -> double) :
  eq rate zero = true ->
  (forall i, ge (dis i) zero && ge one (dis i) = true) ->
  conf_dropouts rate population dis = [true].
Proof.
  intros Hrate Hdraw. unfold conf_dropouts. rewrite Hrate. cbn [seq map].
  specialize (Hdraw 0%nat). apply andb_true_iff in Hdraw.
  now rewrite (draw_ge_zero_rate rate (dis 0%nat) Hrate (proj1 Hdraw)).
Qed.

End SourceEmulator.

(* ================================================================== *)
(** * Further properties of the fast path *)

Section FastPathWindow.
Context {T : Type} `{ReadoutType T}.
Variable base : T -> bool -> M T Iterator.

Lemma fast_path_no_front_slot (q : t T) (e : T) :
  slot q (readIndex_ q) = None ->
  FixedRateQueueModel.lower_bound base e false q = Undefined.
Proof.
  intros Hnone.
  unfold FixedRateQueueModel.lower_bound, occupancy, bind, load.
  now rewrite records_at_slot, Hnone.
Qed.

(** A target that passes the bounds check is answered with the slot
    [record_offset] positions after the read cursor, and that offset is
    at most the occupancy. *)
Lemma fast_path_in_window (q : t T) (e r : T) :
  queue_ok q = true ->
  slot q (readIndex_ q) = Some r ->
  0 < expected_tick_difference -> 0 < get_num_frames r ->
  readIndex_ q + occupancy_of q < 2 ^ 32 ->
  get_first_timestamp r <= get_first_timestamp e
    <= u64 (get_first_timestamp r
            + occupancy_of q * expected_tick_difference * get_num_frames r) ->
  let k := (get_first_timestamp e - get_first_timestamp r)
           / expected_tick_difference / get_num_frames r in
  0 <= k <= occupancy_of q
  /\ FixedRateQueueModel.lower_bound base e false q = Returns (IterAt (physical q k)) q.
Proof.
  intros Hq Hr Hetd Hfpr Hfit Hin k.
  pose proof (queue_ok_inv q Hq) as (Hsz & _ & Hrd & _).
  pose proof (occupancy_bounds q Hq) as Hocc.
  pose proof (get_first_timestamp_range r) as Hlast.
  assert (Hk : 0 <= k <= occupancy_of q)
    by (apply offset_within_occupancy; lia).
  split; [exact Hk|].
  rewrite (fast_path_defined base q e r Hq Hr Hetd Hfpr). cbv zeta. fold k.
  match goal with
  | |- Returns (if ?c then _ else _) _ = _ =>
      replace c with false by (symmetry; apply orb_false_iff; lia)
  end.
  rewrite u32_small by lia.
  rewrite (physical_one_lap q k Hq) by lia.
  reflexivity.
Qed.

(** The slot [occupancy] positions after the read cursor is the write
    cursor, and no retained record lives there. *)
Lemma physical_occupancy (q : t T) :
  queue_ok q = true -> physical q (occupancy_of q) = writeIndex_ q.
Proof.
  intros Hq. pose proof (queue_ok_inv q Hq) as (Hsz & _ & Hrd & Hwr).
  unfold physical, occupancy_of.
  rewrite Z.add_mod_idemp_r by lia.
  replace (readIndex_ q + (writeIndex_ q - readIndex_ q)) with (writeIndex_ q) by lia.
  apply Z.mod_small. lia.
Qed.

Lemma physical_injective (q : t T) (i j : Z) :
  queue_ok q = true -> 0 <= i < size_ q -> 0 <= j < size_ q ->
  physical q i = physical q j -> i = j.
Proof.
  intros Hq Hi Hj Heq.
  rewrite (physical_one_lap q i Hq) in Heq by lia.
  rewrite (physical_one_lap q j Hq) in Heq by lia.
  destruct (readIndex_ q + i >=? size_ q) eqn:Ei;
    destruct (readIndex_ q + j >=? size_ q) eqn:Ej;
    pose proof (queue_ok_inv q Hq); lia.
Qed.

(** X1. The fast path is monotone: of two targets that pass the bounds
    check, the later one is answered with a position at least as many
    records after the read cursor as the earlier one, and neither is
    answered with a position more than [occupancy] records after it. *)
Theorem fast_path_monotone (q : t T) (e1 e2 r : T) :
  queue_ok q = true ->
  slot q (readIndex_ q) = Some r ->
  0 < expected_tick_difference -> 0 < get_num_frames r ->
  readIndex_ q + occupancy_of q < 2 ^ 32 ->
  get_first_timestamp r <= get_first_timestamp e1 ->
  get_first_timestamp e1 <= get_first_timestamp e2 ->
  get_first_timestamp e2
    <= u64 (get_first_timestamp r
            + occupancy_of q * expected_tick_difference * get_num_frames r) ->
  exists k1 k2,
    0 <= k1 /\ k1 <= k2 /\ k2 <= occupancy_of q
    /\ FixedRateQueueModel.lower_bound base e1 false q = Returns (IterAt (physical q k1)) q
    /\ FixedRateQueueModel.lower_bound base e2 false q = Returns (IterAt (physical q k2)) q.
Proof.
  intros Hq Hr Hetd Hfpr Hfit Hlo Hle Hhi.
  destruct (fast_path_in_window q e1 r Hq Hr Hetd Hfpr Hfit ltac:(lia)) as [Hk1 H1].
  destruct (fast_path_in_window q e2 r Hq Hr Hetd Hfpr Hfit ltac:(lia)) as [Hk2 H2].
  eexists _, _. repeat split; [| |exact (proj2 Hk2)|exact H1|exact H2].
  - exact (proj1 Hk1).
  - apply Z.div_le_mono; [lia|]. apply Z.div_le_mono; lia.
Qed.

(** X2. The fast path looks at nothing but the cursors, the capacity
    and the record in the slot at the read cursor: on two queues that
    agree on these it returns the same position, or is undefined on
    both, whatever the other slots hold. *)
Theorem fast_path_reads_only_front_slot (q q' : t T) (e : T) :
  size_ q = size_ q' ->
  readIndex_ q = readIndex_ q' ->
  writeIndex_ q = writeIndex_ q' ->
  slot q (readIndex_ q) = slot q' (readIndex_ q') ->
  returned (FixedRateQueueModel.lower_bound base e false q)
  = returned (FixedRateQueueModel.lower_bound base e false q').
Proof.
  intros Hsize Hread Hwrite Hslot.
  assert (Hocc : occupancy_of q = occupancy_of q')
    by (unfold occupancy_of; now rewrite Hsize, Hread, Hwrite).
  destruct (slot q (readIndex_ q)) as [r|] eqn:Hr.
  - symmetry in Hslot.
    rewrite (fast_path_unfold base q e r Hr), (fast_path_unfold base q' e r Hslot).
    cbv zeta. rewrite Hocc, Hsize, Hread.
    repeat match goal with
           | |- context [if ?c then _ else _] => destruct c
           end; reflexivity.
  - symmetry in Hslot.
    now rewrite (fast_path_no_front_slot q e Hr), (fast_path_no_front_slot q' e Hslot).
Qed.

(** X3. A target exactly at the end of the assumed window,
    [last_ts + occupancy * expected_tick_difference * fpr], passes the
    bounds check and is answered with the Iterator at the write cursor,
    a slot in which no retained record lives. *)
Theorem fast_path_window_end_hits_write_cursor (q : t T) (e r : T) :
  queue_ok q = true ->
  slot q (readIndex_ q) = Some r ->
  0 < expected_tick_difference -> 0 < get_num_frames r ->
  readIndex_ q + occupancy_of q < 2 ^ 32 ->
  get_first_timestamp e
    = get_first_timestamp r
      + occupancy_of q * expected_tick_difference * get_num_frames r ->
  FixedRateQueueModel.lower_bound base e false q = Returns (IterAt (writeIndex_ q)) q
  /\ forall i r', retained q i = Some r' -> physical q i <> writeIndex_ q.
Proof.
  intros Hq Hr Hetd Hfpr Hfit Hend.
  pose proof (occupancy_bounds q Hq) as Hocc.
  pose proof (get_first_timestamp_range e) as He.
  pose proof (get_first_timestamp_range r) as Hlast.
  split.
  - destruct (fast_path_in_window q e r Hq Hr Hetd Hfpr Hfit) as [_ Hres].
    + rewrite u64_small by lia. lia.
    + rewrite Hres. rewrite Hend.
      replace (get_first_timestamp r
               + occupancy_of q * expected_tick_difference * get_num_frames r
               - get_first_timestamp r)
        with (occupancy_of q * get_num_frames r * expected_tick_difference) by lia.
      rewrite Z.div_mul by lia. rewrite Z.div_mul by lia.
      now rewrite physical_occupancy.
  - intros i r' Hr' Heq.
    pose proof (retained_inv q i r' Hr') as [Hi _].
    rewrite <- (physical_occupancy q Hq) in Heq.
    apply physical_injective in Heq; [lia|exact Hq|lia|lia].
Qed.

(** X4. When the end of the assumed window fits 64 bits, a target
    inside the window and strictly before its end is answered with the
    Iterator at a retained record. *)
Theorem fast_path_inside_window_is_retained (q : t T) (e r : T) :
  queue_ok q = true ->
  slot q (readIndex_ q) = Some r ->
  0 < expected_tick_difference -> 0 < get_num_frames r ->
  readIndex_ q + occupancy_of q < 2 ^ 32 ->
  get_first_timestamp r
    + occupancy_of q * expected_tick_difference * get_num_frames r < 2 ^ 64 ->
  get_first_timestamp r <= get_first_timestamp e ->
  get_first_timestamp e
    < get_first_timestamp r
      + occupancy_of q * expected_tick_difference * get_num_frames r ->
  exists k r',
    FixedRateQueueModel.lower_bound base e false q = Returns (IterAt (physical q k)) q
    /\ retained q k = Some r'.
Proof.
  intros Hq Hr Hetd Hfpr Hfit Hend Hlo Hhi.
  pose proof (occupancy_bounds q Hq) as Hocc.
  pose proof (get_first_timestamp_range r) as Hlast.
  destruct (fast_path_in_window q e r Hq Hr Hetd Hfpr Hfit) as [Hk Hres].
  { rewrite u64_small by nia. lia. }
  set (k := (get_first_timestamp e - get_first_timestamp r)
            / expected_tick_difference / get_num_frames r) in *.
  assert (Hlt : k < occupancy_of q).
  { unfold k. rewrite Z.div_div by lia.
    apply Z.div_lt_upper_bound; [nia|]. nia. }
  destruct (retained_defined q k Hq ltac:(lia)) as [r' Hr'].
  exists k, r'. split; [exact Hres|exact Hr'].
Qed.

(** X5. When the tick spacing is 0, or the record at the read cursor
    reports 0 frames, the assumed window is the single tick [last_ts]:
    every other target is answered with [end()], and the target
    [last_ts] makes the lookup divide by zero. *)
Theorem fast_path_zero_span_divides_by_zero (q : t T) (e r : T) :
  slot q (readIndex_ q) = Some r ->
  expected_tick_difference = 0 \/ get_num_frames r = 0 ->
  (get_first_timestamp e <> get_first_timestamp r ->
   FixedRateQueueModel.lower_bound base e false q = Returns IterEnd q)
  /\ (get_first_timestamp e = get_first_timestamp r ->
      FixedRateQueueModel.lower_bound base e false q = Undefined).
Proof.
  intros Hr Hzero.
  pose proof (get_first_timestamp_range r) as Hlast.
  assert (Hnew : u64 (get_first_timestamp r
                      + occupancy_of q * expected_tick_difference * get_num_frames r)
                 = get_first_timestamp r).
  { replace (occupancy_of q * expected_tick_difference * get_num_frames r) with 0
      by (destruct Hzero as [-> | ->]; lia).
    rewrite Z.add_0_r. now apply u64_small. }
  rewrite (fast_path_unfold base q e r Hr). cbv zeta. rewrite Hnew.
  split.
  - intros Hne.
    replace ((get_first_timestamp r >? get_first_timestamp e)
             || (get_first_timestamp e >? get_first_timestamp r)) with true
      by (symmetry; apply orb_true_iff; lia).
    reflexivity.
  - intros Heq. rewrite Heq.
    replace ((get_first_timestamp r >? get_first_timestamp r)
             || (get_first_timestamp r >? get_first_timestamp r)) with false
      by (symmetry; apply orb_false_iff; lia).
    destruct Hzero as [Hz|Hz]; rewrite Hz; cbn [Z.eqb]; [reflexivity|].
    now destruct (expected_tick_difference =? 0).
Qed.

End FastPathWindow.

Section UniformRoundTrip.
Context {T : Type} `{ReadoutType T}.
Variable base : T -> bool -> M T Iterator.

(** X6. On a buffer of uniformly spaced records, looking up the first
    timestamp of any retained record returns the position of that very
    record. *)
Theorem fast_path_finds_retained_record (q : t T) (f b r : T) (fpr i : Z) :
  queue_ok q = true ->
  0 < expected_tick_difference -> 0 < fpr ->
  uniformly_spaced q (get_first_timestamp f) fpr = true ->
  front q = Some f -> back q = Some b ->
  get_first_timestamp f + occupancy_of q * expected_tick_difference * fpr < 2 ^ 64 ->
  2 * size_ q <= 2 ^ 32 ->
  retained q i = Some r ->
  FixedRateQueueModel.lower_bound base r false q = Returns (IterAt (physical q i)) q.
Proof.
  intros Hq Hetd Hfpr Hu Hf Hb Hfit Hcap Hr.
  destruct (uniform_window q f b fpr Hq Hu Hf Hb) as (Hocc & _ & _ & Hbts).
  pose proof (retained_inv q i r Hr) as [Hi _].
  destruct (uniformly_spaced_inv q _ fpr i Hu Hi) as (r' & Hr' & Hts & _).
  rewrite Hr in Hr'. inversion Hr'; subst r'.
  assert (Hspan : 0 < expected_tick_difference * fpr) by nia.
  destruct (fast_path_uniform base q r f b fpr Hq Hetd Hfpr Hu Hf Hb Hfit Hcap)
    as [_ Hres]; [nia|].
  rewrite Hres.
  replace (get_first_timestamp r - get_first_timestamp f)
    with (i * (expected_tick_difference * fpr)) by lia.
  now rewrite Z.div_mul by lia.
Qed.

End UniformRoundTrip.

(* ================================================================== *)
(** * Further properties of the recorder *)

Lemma int32_add_l (a b : Z) : int32 (int32 a + b) = int32 (a + b).
Proof.
  unfold int32. f_equal.
  replace ((a + 2 ^ 31) mod 2 ^ 32 - 2 ^ 31 + b + 2 ^ 31)
    with ((a + 2 ^ 31) mod 2 ^ 32 + b) by lia.
  rewrite Z.add_mod_idemp_l by lia. f_equal. lia.
Qed.

Lemma int32_range (z : Z) : - 2 ^ 31 <= int32 z < 2 ^ 31.
Proof.
  unfold int32. pose proof (Z.mod_pos_bound (z + 2 ^ 31) (2 ^ 32)). lia.
Qed.

Lemma int32_small (z : Z) : - 2 ^ 31 <= z < 2 ^ 31 -> int32 z = z.
Proof.
  intros Hz. unfold int32. rewrite Z.mod_small by lia. lia.
Qed.

Section RecorderRuns.
Variable T : Type.
Variable BufferedFileWriter : Type.
Variable write : BufferedFileWriter -> T -> bool * BufferedFileWriter.
Variable flush : BufferedFileWriter -> BufferedFileWriter.

Local Abbreviation state := (RecorderModel.state BufferedFileWriter).
Local Abbreviation pass := (RecorderModel.pass T).
Local Abbreviation loop := (RecorderModel.loop T BufferedFileWriter write).
Local Abbreviation do_work := (RecorderModel.do_work T BufferedFileWriter write flush).
Local Abbreviation popped_while_running := (RecorderModel.popped_while_running T).
Local Abbreviation write_refused := (RecorderModel.write_refused T BufferedFileWriter write).
Local Abbreviation writer := (RecorderModel.m_buffered_writer BufferedFileWriter).
Local Abbreviation total := (RecorderModel.m_packets_processed_total BufferedFileWriter).
Local Abbreviation since := (RecorderModel.m_packets_processed_since_last_info BufferedFileWriter).
Local Abbreviation warned := (RecorderModel.warnings BufferedFileWriter).

(** Running a schedule in two parts. *)
Lemma loop_app (before after : list pass) (s : state) :
  loop (before ++ after) s
  = match loop before s with
    | (None, s1) => loop after s1
    | (Some e, s1) => (Some e, s1)
    end.
Proof.
  revert s. induction before as [|p before IH]; intros s; [reflexivity|].
  cbn [app RecorderModel.loop].
  destruct (RecorderModel.run_marker T p); [|reflexivity].
  destruct (RecorderModel.body T BufferedFileWriter write (RecorderModel.pop T p) s)
    as [[|] s1]; [apply IH|reflexivity].
Qed.

Lemma counters_in_range_inv (s : state) :
  RecorderModel.counters_in_range BufferedFileWriter s = true ->
  - 2 ^ 31 <= total s < 2 ^ 31 /\ - 2 ^ 31 <= since s < 2 ^ 31.
Proof.
  unfold RecorderModel.counters_in_range. rewrite !andb_true_iff. lia.
Qed.

(** One pass of the loop keeps both counters in the range of an [int]. *)
Lemma body_counters_in_range (p : RecorderModel.pop_outcome T) (s s' : state)
    (c : RecorderModel.control) :
  RecorderModel.counters_in_range BufferedFileWriter s = true ->
  RecorderModel.body T BufferedFileWriter write p s = (c, s') ->
  RecorderModel.counters_in_range BufferedFileWriter s' = true.
Proof.
  intros Hs Hbody. unfold RecorderModel.body in Hbody.
  destruct p as [element|]; [|now inversion Hbody; subst].
  destruct (write (writer s) element) as [ok w].
  pose proof (int32_range (total s + 1)).
  pose proof (int32_range (since s + 1)).
  destruct ok; inversion Hbody; subst; unfold RecorderModel.counters_in_range;
    cbn; rewrite !andb_true_iff; lia.
Qed.

(** The worker loop with a writer that accepts every record. *)
Lemma loop_with_accepting_writer (schedule : list pass) (s : state) :
  (forall w element, fst (write w element) = true) ->
  RecorderModel.counters_in_range BufferedFileWriter s = true ->
  exists e s',
    loop schedule s = (e, s')
    /\ e <> Some RecorderModel.WriteFailed
    /\ writer s' = fold_left (fun w element => snd (write w element))
                             (popped_while_running schedule) (writer s)
    /\ total s' = int32 (total s + Z.of_nat (length (popped_while_running schedule)))
    /\ since s' = int32 (since s + Z.of_nat (length (popped_while_running schedule)))
    /\ warned s' = warned s.
Proof.
  intros Hok. revert s.
  induction schedule as [|p schedule IH]; intros s Hs.
  - exists None, s. pose proof (counters_in_range_inv s Hs) as [Ht Hc].
    cbn. rewrite !Z.add_0_r, !int32_small by lia.
    repeat split; discriminate.
  - cbn [RecorderModel.loop RecorderModel.popped_while_running].
    destruct (RecorderModel.run_marker T p).
    + destruct (RecorderModel.pop T p) as [element|].
      * cbn [RecorderModel.body].
        pose proof (Hok (writer s) element) as Hw.
        destruct (write (writer s) element) as [ok w] eqn:Hwrite.
        cbn in Hw. subst ok. cbn [negb].
        match goal with
        | |- context [loop schedule ?s1] =>
            destruct (IH s1) as (e & s' & Hloop & He & Hwr & Ht & Hc & Hwarn)
        end.
        { pose proof (int32_range (total s + 1)).
          pose proof (int32_range (since s + 1)).
          unfold RecorderModel.counters_in_range. cbn.
          rewrite !andb_true_iff. lia. }
        exists e, s'. split; [exact Hloop|]. split; [exact He|].
        cbn in Hwr, Ht, Hc, Hwarn. cbn [length fold_left].
        rewrite Hwrite. cbn [snd].
        split; [exact Hwr|].
        rewrite Ht, Hc, !int32_add_l.
        repeat split; try (f_equal; lia). exact Hwarn.
      * cbn [RecorderModel.body]. apply IH. exact Hs.
    + exists (Some RecorderModel.RunMarkerCleared), s.
      pose proof (counters_in_range_inv s Hs) as [Ht Hc].
      cbn. rewrite !Z.add_0_r, !int32_small by lia.
      repeat split; discriminate.
Qed.

(** X7. As long as the writer accepts every record, [do_work] writes
    exactly the records popped while the run marker was set, each once
    and in the order they were popped, flushes the writer when the loop
    is left, counts each record in both counters, issues no warning, and
    is not left because of a write. *)
Theorem do_work_writes_popped_in_order (schedule : list pass) (s : state) :
  (forall w element, fst (write w element) = true) ->
  RecorderModel.counters_in_range BufferedFileWriter s = true ->
  let written := fold_left (fun w element => snd (write w element))
                           (popped_while_running schedule) (writer s) in
  exists e s',
    do_work schedule s = (e, s')
    /\ e <> Some RecorderModel.WriteFailed
    /\ writer s' = match e with Some _ => flush written | None => written end
    /\ total s' = int32 (total s + Z.of_nat (length (popped_while_running schedule)))
    /\ since s' = int32 (since s + Z.of_nat (length (popped_while_running schedule)))
    /\ warned s' = warned s.
Proof.
  intros Hok Hs written.
  destruct (loop_with_accepting_writer schedule s Hok Hs)
    as (e & s1 & Hloop & He & Hwr & Ht & Hc & Hw).
  unfold RecorderModel.do_work. rewrite Hloop.
  destruct e as [e|].
  - eexists _, _. split; [reflexivity|]. cbn.
    split; [exact He|]. split; [now rewrite Hwr|]. now repeat split.
  - exists None, s1. split; [reflexivity|]. now repeat split.
Qed.

(** X8. When the writer refuses a record, [do_work] has already counted
    it in both counters; it issues one warning, flushes the writer and
    returns, and the passes that would have followed play no part. *)
Theorem do_work_write_failure_stops
    (before after : list pass) (p : pass) (element : T) (s s1 : state) :
  loop before s = (None, s1) ->
  RecorderModel.run_marker T p = true ->
  RecorderModel.pop T p = RecorderModel.Popped T element ->
  fst (write (writer s1) element) = false ->
  do_work (before ++ p :: after) s
  = (Some RecorderModel.WriteFailed,
     RecorderModel.State BufferedFileWriter
       (flush (snd (write (writer s1) element)))
       (int32 (total s1 + 1)) (int32 (since s1 + 1)) (S (warned s1))).
Proof.
  intros Hbefore Hrun Hpop Hrefused.
  unfold RecorderModel.do_work. rewrite loop_app, Hbefore.
  cbn [RecorderModel.loop]. rewrite Hrun, Hpop. cbn [RecorderModel.body].
  destruct (write (writer s1) element) as [ok w]. cbn in Hrefused. subst ok.
  reflexivity.
Qed.

(** Both counters advance by the number of records popped, one per pass
    at most, and a warning is issued exactly when a write fails. *)
Lemma loop_counters (schedule : list pass) :
  forall (s s' : state) (e : option RecorderModel.exit),
    RecorderModel.counters_in_range BufferedFileWriter s = true ->
    loop schedule s = (e, s') ->
    exists n : Z,
      0 <= n <= Z.of_nat (length schedule)
      /\ total s' = int32 (total s + n)
      /\ since s' = int32 (since s + n)
      /\ warned s' = match e with
                     | Some RecorderModel.WriteFailed => S (warned s)
                     | _ => warned s
                     end.
Proof.
  induction schedule as [|p schedule IH]; intros s s' e Hs Hloop.
  - inversion Hloop; subst. exists 0.
    pose proof (counters_in_range_inv s' Hs) as [Ht Hc].
    rewrite !Z.add_0_r, !int32_small by lia. cbn. repeat split; lia.
  - cbn [RecorderModel.loop] in Hloop.
    destruct (RecorderModel.run_marker T p).
    + destruct (RecorderModel.body T BufferedFileWriter write (RecorderModel.pop T p) s)
        as [c s1] eqn:Hbody.
      pose proof (body_counters_in_range _ _ _ _ Hs Hbody) as Hs1.
      unfold RecorderModel.body in Hbody.
      destruct (RecorderModel.pop T p) as [element|].
      * destruct (write (writer s) element) as [ok w].
        destruct ok; cbn [negb] in Hbody; inversion Hbody; subst c s1; clear Hbody.
        -- destruct (IH _ s' e Hs1 Hloop) as (n & Hn & Ht & Hc & Hw).
           cbn in Ht, Hc, Hw. exists (1 + n). cbn [length].
           rewrite Ht, Hc, !int32_add_l.
           split; [lia|]. split; [f_equal; lia|]. split; [f_equal; lia|exact Hw].
        -- inversion Hloop; subst e s'. exists 1. cbn. repeat split; lia.
      * inversion Hbody; subst c s1.
        destruct (IH _ s' e Hs Hloop) as (n & Hn & Ht & Hc & Hw).
        exists n. cbn [length]. repeat split; try assumption; lia.
    + inversion Hloop; subst. exists 0.
      pose proof (counters_in_range_inv s' Hs) as [Ht Hc].
      rewrite !Z.add_0_r, !int32_small by lia. cbn. repeat split; lia.
Qed.

(** X9. Whatever happens during [do_work], both counters advance by the
    same number of records, at most one per pass of the loop, and a
    warning is issued exactly when the loop is left because of a failed
    write. *)
Theorem do_work_counters_advance_together
    (schedule : list pass) (s s' : state) (e : option RecorderModel.exit) :
  RecorderModel.counters_in_range BufferedFileWriter s = true ->
  do_work schedule s = (e, s') ->
  exists n : Z,
    0 <= n <= Z.of_nat (length schedule)
    /\ total s' = int32 (total s + n)
    /\ since s' = int32 (since s + n)
    /\ warned s' = match e with
                   | Some RecorderModel.WriteFailed => S (warned s)
                   | _ => warned s
                   end.
Proof.
  intros Hs Hwork. unfold RecorderModel.do_work in Hwork.
  destruct (loop schedule s) as [[e1|] s1] eqn:Hloop;
    inversion Hwork; subst e s'; clear Hwork;
    destruct (loop_counters schedule s s1 _ Hs Hloop) as (n & Hn & Ht & Hc & Hw);
    exists n; cbn; repeat split; try assumption; lia.
Qed.

Variable time_point : Type.
Variable seconds_between : time_point -> time_point -> spec_float.
Variable int_by_double : Z -> spec_float -> spec_float.

Local Abbreviation get_info :=
  (RecorderModel.get_info BufferedFileWriter time_point seconds_between int_by_double).
Local Abbreviation do_start := (RecorderModel.do_start BufferedFileWriter).

(** X10. [do_start] resets the total but not the counter of records
    since the last info.  After a run in which every write succeeds,
    [get_info] reports as processed the number of records popped in the
    run, computes the throughput from the count that was pending before
    the run plus that number, resets this count to 0 and leaves the
    total and the writer as they are. *)
Theorem get_info_after_run
    (schedule : list pass) (s s1 : state) (e : option RecorderModel.exit)
    (now now' last_info : time_point) :
  (forall w element, fst (write w element) = true) ->
  RecorderModel.counters_in_range BufferedFileWriter s = true ->
  loop schedule (do_start s) = (e, s1) ->
  let popped := Z.of_nat (length (popped_while_running schedule)) in
  get_info now now' last_info s1
  = (RecorderModel.MkInfo (int32 popped)
       (int_by_double (int32 (since s + popped)) (seconds_between now last_info)),
     now',
     RecorderModel.State BufferedFileWriter (writer s1) (int32 popped) 0 (warned s)).
Proof.
  intros Hok Hs Hloop popped.
  assert (Hs0 : RecorderModel.counters_in_range BufferedFileWriter (do_start s) = true).
  { pose proof (counters_in_range_inv s Hs) as [_ Hc].
    unfold RecorderModel.counters_in_range, RecorderModel.do_start. cbn.
    rewrite !andb_true_iff. lia. }
  destruct (loop_with_accepting_writer schedule (do_start s) Hok Hs0)
    as (e' & s' & Hloop' & _ & _ & Ht & Hc & Hw).
  rewrite Hloop in Hloop'. inversion Hloop'; subst e' s'.
  cbn in Ht, Hc, Hw. fold popped in Ht, Hc.
  unfold RecorderModel.get_info. now rewrite Ht, Hc, Hw.
Qed.

End RecorderRuns.

(** A recorder of natural numbers whose file is the list of the numbers
    written and that refuses nothing: two records are popped around a
    time-out and the marker is then cleared. *)
Lemma do_work_writes_popped_in_order_witness :
  exists e s',
    RecorderModel.do_work nat (list nat) (fun file n => (true, file ++ [n])) (fun file => file)
      [RecorderModel.Pass nat true (RecorderModel.Popped nat 7%nat);
       RecorderModel.Pass nat true (RecorderModel.QueueTimeoutExpired nat);
       RecorderModel.Pass nat true (RecorderModel.Popped nat 9%nat);
       RecorderModel.Pass nat false (RecorderModel.Popped nat 11%nat)]
      (RecorderModel.State (list nat) [] 0 0 0)
    = (e, s')
    /\ RecorderModel.m_buffered_writer (list nat) s' = [7%nat; 9%nat]
    /\ RecorderModel.m_packets_processed_total (list nat) s' = 2.
Proof.
  destruct (do_work_writes_popped_in_order nat (list nat)
              (fun file n => (true, file ++ [n])) (fun file => file)
              [RecorderModel.Pass nat true (RecorderModel.Popped nat 7%nat);
               RecorderModel.Pass nat true (RecorderModel.QueueTimeoutExpired nat);
               RecorderModel.Pass nat true (RecorderModel.Popped nat 9%nat);
               RecorderModel.Pass nat false (RecorderModel.Popped nat 11%nat)]
              (RecorderModel.State (list nat) [] 0 0 0))
    as (e & s' & Hwork & He & Hwr & Ht & _); try reflexivity.
  exists e, s'. split; [exact Hwork|].
  destruct e as [e|].
  - split; [exact Hwr|exact Ht].
  - exfalso. vm_compute in Hwork. discriminate.
Defined.

(** The same recorder refusing the number 0: the second record popped
    is refused. *)
Lemma do_work_write_failure_stops_witness :
  RecorderModel.do_work nat (list nat)
    (fun file n => (negb (Nat.eqb n 0), file ++ [n])) (fun file => file)
    ([RecorderModel.Pass nat true (RecorderModel.Popped nat 7%nat)]
     ++ RecorderModel.Pass nat true (RecorderModel.Popped nat 0%nat)
     :: [RecorderModel.Pass nat true (RecorderModel.Popped nat 9%nat)])
    (RecorderModel.State (list nat) [] 0 0 0)
  = (Some RecorderModel.WriteFailed,
     RecorderModel.State (list nat) [7%nat; 0%nat] 2 2 1).
Proof.
  refine (do_work_write_failure_stops nat (list nat)
            (fun file n => (negb (Nat.eqb n 0), file ++ [n])) (fun file => file)
            [RecorderModel.Pass nat true (RecorderModel.Popped nat 7%nat)]
            [RecorderModel.Pass nat true (RecorderModel.Popped nat 9%nat)]
            (RecorderModel.Pass nat true (RecorderModel.Popped nat 0%nat)) 0%nat
            (RecorderModel.State (list nat) [] 0 0 0)
            (RecorderModel.State (list nat) [7%nat] 1 1 0) _ _ _ _); reflexivity.
Defined.

Lemma do_work_counters_advance_together_witness :
  exists n : Z,
    0 <= n <= 3
    /\ RecorderModel.m_packets_processed_total (list nat)
         (RecorderModel.State (list nat) [7%nat; 0%nat] 2 2 1) = int32 (0 + n)
    /\ RecorderModel.m_packets_processed_since_last_info (list nat)
         (RecorderModel.State (list nat) [7%nat; 0%nat] 2 2 1) = int32 (0 + n).
Proof.
  destruct (do_work_counters_advance_together nat (list nat)
              (fun file n => (negb (Nat.eqb n 0), file ++ [n])) (fun file => file)
              [RecorderModel.Pass nat true (RecorderModel.Popped nat 7%nat);
               RecorderModel.Pass nat true (RecorderModel.Popped nat 0%nat);
               RecorderModel.Pass nat true (RecorderModel.Popped nat 9%nat)]
              (RecorderModel.State (list nat) [] 0 0 0)
              (RecorderModel.State (list nat) [7%nat; 0%nat] 2 2 1)
              (Some RecorderModel.WriteFailed) eq_refl eq_refl)
    as (n & Hn & Ht & Hc & _).
  exists n. split; [exact Hn|]. split; [exact Ht|exact Hc].
Defined.

Lemma get_info_after_run_witness :
  RecorderModel.get_info (list nat) nat (fun a b => S754_zero false) (fun n d => d)
    5%nat 6%nat 1%nat (RecorderModel.State (list nat) [7%nat; 9%nat] 2 5 0)
  = (RecorderModel.MkInfo 2 (S754_zero false), 6%nat,
     RecorderModel.State (list nat) [7%nat; 9%nat] 2 0 0).
Proof.
  refine (get_info_after_run nat (list nat) (fun file n => (true, file ++ [n]))
            nat (fun a b => S754_zero false) (fun n d => d)
            [RecorderModel.Pass nat true (RecorderModel.Popped nat 7%nat);
             RecorderModel.Pass nat true (RecorderModel.Popped nat 9%nat)]
            (RecorderModel.State (list nat) [] 40 3 0)
            (RecorderModel.State (list nat) [7%nat; 9%nat] 2 5 0)
            None 5%nat 6%nat 1%nat _ _ _); reflexivity.
Defined.

(* ================================================================== *)
(** * Further properties of the source emulator *)

Section ProducerRuns.
Import SourceEmulatorModel.

Variable num_elem : Z.
Variable sizeof_ReadoutType : Z.
Variable source_size : Z.
Variable m_time_tick_diff : Z.
Variable table : list bool.

(** The sample buffer holds at least one record and fewer than 2^32 - 1,
    its size in bytes is a [size_t] with room for one more record, and
    the dropout table is not empty. *)
Hypothesis sizeof_positive : 0 < sizeof_ReadoutType.
Hypothesis one_record : sizeof_ReadoutType <= source_size.
Hypothesis records_fit : source_size < (2 ^ 32 - 1) * sizeof_ReadoutType.
Hypothesis bytes_fit : source_size + sizeof_ReadoutType < 2 ^ 64.
Hypothesis table_not_empty : (0 < length table)%nat.

Local Abbreviation body :=
  (SourceEmulatorModel.body num_elem sizeof_ReadoutType source_size m_time_tick_diff table).
Local Abbreviation loop :=
  (SourceEmulatorModel.loop num_elem sizeof_ReadoutType source_size m_time_tick_diff table).
Local Abbreviation step := (m_time_tick_diff * 12).

Lemma dropouts_at_cycle (k : nat) :
  dropouts_at table (Z.of_nat (k mod length table)) = Some (creates_frame table k).
Proof.
  assert (Hlt : (k mod length table < length table)%nat)
    by (apply Nat.mod_upper_bound; lia).
  unfold dropouts_at, creates_frame.
  replace ((0 <=? Z.of_nat (k mod length table))
           && (Z.of_nat (k mod length table) <? Z.of_nat (length table)))
    with true by (symmetry; apply andb_true_iff; lia).
  rewrite Nat2Z.id. now apply nth_error_nth'.
Qed.

Lemma next_dropout_index (k : nat) :
  (Z.of_nat (k mod length table) + 1) mod Z.of_nat (length table)
  = Z.of_nat (S k mod length table).
Proof.
  rewrite !Nat2Z.inj_mod. rewrite Z.add_mod_idemp_l by lia.
  f_equal. lia.
Qed.

(** One pass of the producer loop at pass number [k]. *)
Lemma body_at_pass (accepted : bool) (s : state) (k : nat) :
  0 <= offset s -> offset s * sizeof_ReadoutType <= source_size ->
  dropout_index s = Z.of_nat (k mod length table) ->
  exists s',
    body accepted s = Some s'
    /\ 0 <= offset s' /\ offset s' * sizeof_ReadoutType <= source_size
    /\ dropout_index s' = Z.of_nat (S k mod length table)
    /\ timestamp s' = u64 (timestamp s + u64 step)
    /\ if creates_frame table k
       then (exists o, pushed s' = pushed s ++ [Payload o (timestamp s)])
            /\ m_packet_count s' = int32 (m_packet_count s + 1)
            /\ m_packet_count_tot s' = int32 (m_packet_count_tot s + 1)
            /\ warnings s' = (if accepted then warnings s else S (warnings s))
       else pushed s' = pushed s
            /\ m_packet_count s' = m_packet_count s
            /\ m_packet_count_tot s' = m_packet_count_tot s
            /\ warnings s' = warnings s.
Proof.
  intros Hoff Hin Hidx.
  assert (Hlt : offset s < 2 ^ 32 - 1) by nia.
  unfold SourceEmulatorModel.body. rewrite Hidx, dropouts_at_cycle.
  replace (Z.of_nat (length table) =? 0) with false by (symmetry; lia).
  rewrite next_dropout_index.
  set (offset1 := if (offset s =? u64 (num_elem * sizeof_ReadoutType))
                     || (u64 (u32 (offset s + 1) * sizeof_ReadoutType) >? source_size)
                  then 0 else offset s).
  assert (Hoff1 : 0 <= offset1 /\ (offset1 + 1) * sizeof_ReadoutType <= source_size).
  { unfold offset1.
    destruct ((offset s =? u64 (num_elem * sizeof_ReadoutType))
              || (u64 (u32 (offset s + 1) * sizeof_ReadoutType) >? source_size)) eqn:Hreset.
    - lia.
    - apply orb_false_iff in Hreset. destruct Hreset as [_ Hroom].
      rewrite u32_small in Hroom by lia.
      rewrite u64_small in Hroom by nia.
      lia. }
  destruct Hoff1 as [Hpos Hroom].
  destruct (creates_frame table k).
  - replace ((offset1 + 1) * sizeof_ReadoutType >? source_size) with false
      by (symmetry; lia).
    eexists. split; [reflexivity|].
    cbn [offset dropout_index timestamp pushed m_packet_count m_packet_count_tot warnings].
    assert (offset1 + 1 < 2 ^ 32) by nia.
    rewrite u32_small by lia.
    repeat split; try lia. now exists offset1.
  - eexists. split; [reflexivity|].
    cbn [offset dropout_index timestamp pushed m_packet_count m_packet_count_tot warnings].
    repeat split; lia.
Qed.

Lemma u64_next_timestamp (ts_0 : Z) (k : nat) :
  u64 (u64 (ts_0 + Z.of_nat k * step) + u64 step) = u64 (ts_0 + Z.of_nat (S k) * step).
Proof.
  unfold u64. rewrite <- Z.add_mod by lia. f_equal. lia.
Qed.

(** The producer loop from pass number [k] on. *)
Lemma loop_from_pass (schedule : list pass) :
  forall (k : nat) (s : state) (ts_0 : Z),
    0 <= offset s -> offset s * sizeof_ReadoutType <= source_size ->
    dropout_index s = Z.of_nat (k mod length table) ->
    timestamp s = u64 (ts_0 + Z.of_nat k * step) ->
    - 2 ^ 31 <= m_packet_count s < 2 ^ 31 ->
    - 2 ^ 31 <= m_packet_count_tot s < 2 ^ 31 ->
    let pushing := filter (creates_frame table) (seq k (passes_run schedule)) in
    exists s',
      loop schedule s = Some s'
      /\ map stamped_timestamp (pushed s')
         = map stamped_timestamp (pushed s)
           ++ map (fun i => u64 (ts_0 + Z.of_nat i * step)) pushing
      /\ timestamp s' = u64 (ts_0 + Z.of_nat (k + passes_run schedule) * step)
      /\ m_packet_count s' = int32 (m_packet_count s + Z.of_nat (length pushing))
      /\ m_packet_count_tot s' = int32 (m_packet_count_tot s + Z.of_nat (length pushing))
      /\ warnings s' = (warnings s + refused_pushes table k schedule)%nat.
Proof.
  induction schedule as [|p schedule IH]; intros k s ts_0 Hoff Hin Hidx Hts Hc Ht pushing.
  - exists s. cbn in pushing. subst pushing. cbn.
    rewrite app_nil_r, !Nat.add_0_r, !Z.add_0_r, !int32_small by lia.
    repeat split. exact Hts.
  - subst pushing. cbn [SourceEmulatorModel.loop passes_run refused_pushes].
    destruct (run_marker p).
    + destruct (body_at_pass (push_accepted p) s k Hoff Hin Hidx)
        as (s1 & Hbody & Hoff1 & Hin1 & Hidx1 & Hts1 & Hpush).
      rewrite Hbody.
      rewrite Hts, u64_next_timestamp in Hts1.
      cbn [seq filter].
      destruct (creates_frame table k) eqn:Hk.
      * destruct Hpush as ((o & Hp) & Hc1 & Ht1 & Hw1).
        destruct (IH (S k) s1 ts_0 Hoff1 Hin1 Hidx1 Hts1)
          as (s' & Hloop & Hstamps & Hts' & Hc' & Ht' & Hw');
          [rewrite Hc1; apply int32_range|rewrite Ht1; apply int32_range|].
        exists s'. split; [exact Hloop|].
        rewrite Hstamps, Hts', Hc', Ht', Hw', Hp, Hc1, Ht1, Hw1, !int32_add_l.
        rewrite map_app, <- app_assoc. cbn [map app stamped_timestamp length].
        rewrite Hts.
        repeat split; try (f_equal; lia).
        destruct (push_accepted p); cbn; lia.
      * destruct Hpush as (Hp & Hc1 & Ht1 & Hw1).
        destruct (IH (S k) s1 ts_0 Hoff1 Hin1 Hidx1 Hts1)
          as (s' & Hloop & Hstamps & Hts' & Hc' & Ht' & Hw');
          [lia|lia|].
        exists s'. split; [exact Hloop|].
        rewrite Hstamps, Hts', Hc', Ht', Hw', Hp, Hc1, Ht1, Hw1.
        repeat split; try (f_equal; lia).
    + exists s. cbn.
      rewrite app_nil_r, !Nat.add_0_r, !Z.add_0_r, !int32_small by lia.
      repeat split. exact Hts.
Qed.

Local Abbreviation run_produce :=
  (SourceEmulatorModel.run_produce num_elem sizeof_ReadoutType source_size
     m_time_tick_diff table).

(** X11. The timestamp advances by [12 * m_time_tick_diff] on every pass
    of [run_produce], whether or not a frame is created: pass [i] pushes
    a payload exactly when entry [i mod size] of the dropout table is
    set, and that payload is stamped [ts_0 + i * 12 * m_time_tick_diff]
    as a [uint64_t], so that dropped passes leave gaps in the pushed
    timestamps. *)
Theorem run_produce_stamps_pushing_passes
    (ts_0 packet_count packet_count_tot : Z) (schedule : list pass) :
  0 <= ts_0 < 2 ^ 64 ->
  - 2 ^ 31 <= packet_count < 2 ^ 31 ->
  - 2 ^ 31 <= packet_count_tot < 2 ^ 31 ->
  exists s',
    run_produce ts_0 packet_count packet_count_tot schedule = Some s'
    /\ map stamped_timestamp (pushed s')
       = map (fun i => u64 (ts_0 + Z.of_nat i * step))
             (filter (creates_frame table) (seq 0 (passes_run schedule)))
    /\ timestamp s' = u64 (ts_0 + Z.of_nat (passes_run schedule) * step).
Proof.
  intros Hts Hc Ht. unfold SourceEmulatorModel.run_produce.
  destruct (loop_from_pass schedule 0
              (State 0 ts_0 0 packet_count packet_count_tot [] 0 []) ts_0)
    as (s' & Hloop & Hstamps & Hts' & _); cbn; try lia.
  - now rewrite Nat.Div0.mod_0_l.
  - rewrite Z.add_0_r. symmetry. now apply u64_small.
  - exists s'. split; [exact Hloop|]. split; [exact Hstamps|exact Hts'].
Qed.

(** X12. Both packet counters count every push [run_produce] makes,
    including the pushes the sink refuses; each refused push adds one
    warning and nothing else. *)
Theorem run_produce_counts_refused_pushes
    (ts_0 packet_count packet_count_tot : Z) (schedule : list pass) :
  0 <= ts_0 < 2 ^ 64 ->
  - 2 ^ 31 <= packet_count < 2 ^ 31 ->
  - 2 ^ 31 <= packet_count_tot < 2 ^ 31 ->
  exists s',
    run_produce ts_0 packet_count packet_count_tot schedule = Some s'
    /\ m_packet_count s' = int32 (packet_count + Z.of_nat (length (pushed s')))
    /\ m_packet_count_tot s' = int32 (packet_count_tot + Z.of_nat (length (pushed s')))
    /\ warnings s' = refused_pushes table 0 schedule
    /\ (warnings s' <= length (pushed s'))%nat.
Proof.
  intros Hts Hc Ht. unfold SourceEmulatorModel.run_produce.
  destruct (loop_from_pass schedule 0
              (State 0 ts_0 0 packet_count packet_count_tot [] 0 []) ts_0)
    as (s' & Hloop & Hstamps & _ & Hc' & Ht' & Hw'); cbn; try lia.
  - now rewrite Nat.Div0.mod_0_l.
  - rewrite Z.add_0_r. symmetry. now apply u64_small.
  - cbn in Hstamps, Hc', Ht', Hw'.
    assert (Hlen : length (pushed s')
                   = length (filter (creates_frame table) (seq 0 (passes_run schedule)))).
    { rewrite <- (length_map stamped_timestamp), Hstamps. now rewrite length_map. }
    exists s'. split; [exact Hloop|]. rewrite Hlen.
    split; [exact Hc'|]. split; [exact Ht'|]. split; [exact Hw'|].
    rewrite Hw'. clear. generalize 0%nat as k.
    induction schedule as [|p schedule IH]; intros k; cbn; [lia|].
    destruct (run_marker p); [|lia]. cbn [seq filter].
    specialize (IH (S k)).
    destruct (creates_frame table k); destruct (push_accepted p); cbn; lia.
Qed.

(** X13. [get_info] reports the pushes made so far and the pushes made
    since the previous report, and resets only the latter: the report
    that follows immediately shows the same total and 0 new packets. *)
Theorem get_info_reports_and_resets
    (ts_0 packet_count packet_count_tot : Z) (schedule : list pass) :
  0 <= ts_0 < 2 ^ 64 ->
  - 2 ^ 31 <= packet_count < 2 ^ 31 ->
  - 2 ^ 31 <= packet_count_tot < 2 ^ 31 ->
  exists s',
    run_produce ts_0 packet_count packet_count_tot schedule = Some s'
    /\ fst (get_info s')
       = MkInfo (int32 (packet_count_tot + Z.of_nat (length (pushed s'))))
                (int32 (packet_count + Z.of_nat (length (pushed s'))))
    /\ fst (get_info (snd (get_info s')))
       = MkInfo (int32 (packet_count_tot + Z.of_nat (length (pushed s')))) 0
    /\ pushed (snd (get_info s')) = pushed s'.
Proof.
  intros Hts Hc Ht. unfold SourceEmulatorModel.run_produce.
  destruct (loop_from_pass schedule 0
              (State 0 ts_0 0 packet_count packet_count_tot [] 0 []) ts_0)
    as (s' & Hloop & Hstamps & _ & Hc' & Ht' & _); cbn; try lia.
  - now rewrite Nat.Div0.mod_0_l.
  - rewrite Z.add_0_r. symmetry. now apply u64_small.
  - cbn in Hstamps, Hc', Ht'.
    assert (Hlen : length (pushed s')
                   = length (filter (creates_frame table) (seq 0 (passes_run schedule)))).
    { rewrite <- (length_map stamped_timestamp), Hstamps. now rewrite length_map. }
    exists s'. split; [exact Hloop|]. rewrite Hlen.
    unfold get_info. cbn. rewrite Hc', Ht'. repeat split.
Qed.

End ProducerRuns.

Section Replay.
Import SourceEmulatorModel.

Variable num_elem : Z.
Variable sizeof_ReadoutType : Z.
Variable m_time_tick_diff : Z.
Variable table : list bool.

(** The sample buffer holds [num_elem] whole records, at least one and
    fewer than 2^32 - 1, and one more record would still fit a
    [size_t]. *)
Hypothesis sizeof_positive : 0 < sizeof_ReadoutType.
Hypothesis elements_positive : 0 < num_elem.
Hypothesis elements_fit : num_elem < 2 ^ 32 - 1.
Hypothesis bytes_fit : (num_elem + 1) * sizeof_ReadoutType < 2 ^ 64.

Local Abbreviation source_size := (num_elem * sizeof_ReadoutType).
Local Abbreviation body :=
  (SourceEmulatorModel.body num_elem sizeof_ReadoutType source_size m_time_tick_diff table).
Local Abbreviation loop :=
  (SourceEmulatorModel.loop num_elem sizeof_ReadoutType source_size m_time_tick_diff table).
Local Abbreviation replay_invariant := (SourceEmulatorModel.replay_invariant num_elem).

(** A pass of the loop either pushes nothing and leaves the offset at
    the record to copy next, or pushes that record and moves on. *)
Lemma body_replay (accepted : bool) (s s' : state) :
  0 <= offset s <= num_elem ->
  body accepted s = Some s' ->
  (pushed s' = pushed s /\ offset s' = offset s mod num_elem)
  \/ (exists ts, pushed s' = pushed s ++ [Payload (offset s mod num_elem) ts])
     /\ offset s' = offset s mod num_elem + 1.
Proof.
  intros Hoff Hbody. unfold SourceEmulatorModel.body in Hbody.
  destruct (dropouts_at table (dropout_index s)) as [create_frame|]; [|discriminate].
  destruct (Z.of_nat (length table) =? 0); [discriminate|].
  rewrite (u64_small (num_elem * sizeof_ReadoutType)) in Hbody by nia.
  rewrite (u32_small (offset s + 1)) in Hbody by lia.
  rewrite (u64_small ((offset s + 1) * sizeof_ReadoutType)) in Hbody by nia.
  assert (Hreset : (offset s =? num_elem * sizeof_ReadoutType)
                   || ((offset s + 1) * sizeof_ReadoutType >? num_elem * sizeof_ReadoutType)
                   = (offset s =? num_elem)).
  { destruct (Z.eq_dec (offset s) num_elem) as [Heq|Hne].
    - rewrite Heq, Z.eqb_refl. apply orb_true_iff. right. nia.
    - replace (offset s =? num_elem) with false by (symmetry; lia).
      apply orb_false_iff. split; [nia|nia]. }
  rewrite Hreset in Hbody.
  assert (Hmod : (if offset s =? num_elem then 0 else offset s) = offset s mod num_elem).
  { destruct (Z.eq_dec (offset s) num_elem) as [Heq|Hne].
    - rewrite Heq, Z.eqb_refl, Z.mod_same by lia. reflexivity.
    - replace (offset s =? num_elem) with false by (symmetry; lia).
      symmetry. apply Z.mod_small. lia. }
  rewrite Hmod in Hbody.
  pose proof (Z.mod_pos_bound (offset s) num_elem elements_positive) as Hm.
  destruct create_frame.
  - destruct ((offset s mod num_elem + 1) * sizeof_ReadoutType
              >? num_elem * sizeof_ReadoutType); [discriminate|].
    inversion Hbody; subst s'. cbn. right.
    split; [now eexists|]. apply u32_small. lia.
  - inversion Hbody; subst s'. cbn. now left.
Qed.

Lemma body_keeps_replay (accepted : bool) (s s' : state) :
  replay_invariant s -> body accepted s = Some s' -> replay_invariant s'.
Proof.
  intros (Hoff & Hstep & Hrec) Hbody.
  pose proof (Z.mod_pos_bound (offset s) num_elem elements_positive) as Hm.
  destruct (body_replay accepted s s' Hoff Hbody) as [[Hp Ho]|[[ts Hp] Ho]];
    unfold SourceEmulatorModel.replay_invariant; rewrite Hp, Ho.
  - split; [lia|]. split; [|exact Hrec].
    now rewrite Z.mod_mod by lia.
  - rewrite length_app, map_app, Nat.add_1_r, seq_S, map_app. cbn [length map Nat.add].
    split; [lia|]. split.
    + rewrite Nat2Z.inj_succ, <- Z.add_1_r.
      rewrite Z.add_mod_idemp_l by lia.
      rewrite <- (Z.add_mod_idemp_l (Z.of_nat _)) by lia.
      rewrite <- Hstep. now rewrite Z.add_mod_idemp_l by lia.
    + cbn [source_record]. now rewrite Hrec, Hstep.
Qed.

Lemma loop_keeps_replay (schedule : list pass) :
  forall s s', replay_invariant s -> loop schedule s = Some s' -> replay_invariant s'.
Proof.
  induction schedule as [|p schedule IH]; intros s s' Hinv Hloop.
  - now inversion Hloop; subst.
  - cbn [SourceEmulatorModel.loop] in Hloop.
    destruct (run_marker p); [|now inversion Hloop; subst].
    destruct (body (push_accepted p) s) as [s1|] eqn:Hbody; [|discriminate].
    apply (IH s1 s'); [|exact Hloop].
    now apply (body_keeps_replay (push_accepted p) s).
Qed.

(** X14. [run_produce] replays the sample buffer cyclically: whatever
    the dropout table, the payloads it pushes are copies of the records
    0, 1, ..., [num_elem - 1], 0, 1, ... of the buffer in this order,
    none skipped and none repeated out of turn. *)
Theorem run_produce_replays_cyclically
    (ts_0 packet_count packet_count_tot : Z) (schedule : list pass) :
  (0 < length table)%nat ->
  0 <= ts_0 < 2 ^ 64 ->
  - 2 ^ 31 <= packet_count < 2 ^ 31 ->
  - 2 ^ 31 <= packet_count_tot < 2 ^ 31 ->
  exists s',
    SourceEmulatorModel.run_produce num_elem sizeof_ReadoutType source_size
      m_time_tick_diff table ts_0 packet_count packet_count_tot schedule = Some s'
    /\ map source_record (pushed s')
       = map (fun i => Z.of_nat i mod num_elem) (seq 0 (length (pushed s'))).
Proof.
  intros Htable Hts Hc Ht. unfold SourceEmulatorModel.run_produce.
  destruct (loop_from_pass num_elem sizeof_ReadoutType source_size m_time_tick_diff table
              sizeof_positive ltac:(nia) ltac:(nia) ltac:(nia) Htable
              schedule 0 (State 0 ts_0 0 packet_count packet_count_tot [] 0 []) ts_0)
    as (s' & Hloop & _); cbn; try lia.
  - now rewrite Nat.Div0.mod_0_l.
  - rewrite Z.add_0_r. symmetry. now apply u64_small.
  - exists s'. split; [exact Hloop|].
    apply (loop_keeps_replay schedule _ s') in Hloop.
    + exact (proj2 (proj2 Hloop)).
    + unfold SourceEmulatorModel.replay_invariant. cbn. repeat split; lia.
Qed.

End Replay.

Section DropoutTables.
Import SourceEmulatorModel.

(** Comparing two doubles the other way round gives the opposite
    answer. *)
Lemma SFcompare_antisym (a b : double) :
  SFcompare b a = option_map CompOpp (SFcompare a b).
Proof.
  destruct a as [[]|[]| |[] ma ea]; destruct b as [[]|[]| |[] mb eb];
    cbn; try reflexivity;
    rewrite (Z.compare_antisym ea eb);
    destruct (ea ?= eb); cbn; try reflexivity;
    pose proof (Pos.compare_cont_antisym ma mb Eq) as Hm; cbn in Hm;
    rewrite <- Hm; try reflexivity; now rewrite CompOpp_involutive.
Qed.

Lemma below_is_not_ge (d rate : double) :
  SFltb d rate = true -> ge d rate = false.
Proof.
  unfold ge, SFltb, SFleb. rewrite (SFcompare_antisym d rate).
  destruct (SFcompare d rate) as [[]|]; cbn; congruence.
Qed.

Lemma rate_above_draw_is_not_zero (d rate : double) :
  ge d zero = true -> SFltb d rate = true -> eq rate zero = false.
Proof.
  unfold ge, eq, zero, SFltb, SFleb, SFeqb.
  destruct d as [[]|[]| |[] md ed]; destruct rate as [[]|[]| |[] mr er];
    cbn; intros; try discriminate; reflexivity.
Qed.

Lemma filter_nothing {A} (f : A -> bool) (l : list A) :
  (forall x, f x = false) -> filter f l = [].
Proof.
  intros Hf. induction l as [|x l IH]; [reflexivity|].
  cbn. now rewrite Hf.
Qed.

(** A table built from draws that are all below the rate holds no set
    entry. *)
Lemma conf_dropouts_all_dropped (rate : double) (population : nat) (dis : nat -> double) :
  (forall i, ge (dis i) zero = true) ->
  (forall i, SFltb (dis i) rate = true) ->
  length (conf_dropouts rate population dis) = population
  /\ forall i, creates_frame (conf_dropouts rate population dis) i = false.
Proof.
  intros Hpos Hbelow. unfold conf_dropouts.
  rewrite (rate_above_draw_is_not_zero (dis 0%nat) rate (Hpos 0%nat) (Hbelow 0%nat)).
  split; [now rewrite length_map, length_seq|].
  intros i. unfold creates_frame.
  destruct (nth_in_or_default (i mod length (map (fun i0 => ge (dis i0) rate) (seq 0 population)))
              (map (fun i0 => ge (dis i0) rate) (seq 0 population)) false) as [Hin|Hdef];
    [|exact Hdef].
  apply in_map_iff in Hin. destruct Hin as (j & Hj & _).
  rewrite <- Hj. now apply below_is_not_ge.
Qed.

(** X15. When every draw is below the dropout rate (a rate of 1.0 with
    draws from [0, 1), for one), [conf] builds a table without a set
    entry and [run_produce] never pushes: no payload reaches the sink
    and the total stays as it was, while the timestamp keeps advancing
    with every pass. *)
Theorem draws_below_rate_drop_every_frame
    (num_elem sizeof_ReadoutType source_size m_time_tick_diff : Z)
    (rate : double) (population : nat) (dis : nat -> double)
    (ts_0 packet_count packet_count_tot : Z) (schedule : list pass) :
  0 < sizeof_ReadoutType ->
  sizeof_ReadoutType <= source_size ->
  source_size < (2 ^ 32 - 1) * sizeof_ReadoutType ->
  source_size + sizeof_ReadoutType < 2 ^ 64 ->
  (0 < population)%nat ->
  (forall i, ge (dis i) zero = true) ->
  (forall i, SFltb (dis i) rate = true) ->
  0 <= ts_0 < 2 ^ 64 ->
  - 2 ^ 31 <= packet_count < 2 ^ 31 ->
  - 2 ^ 31 <= packet_count_tot < 2 ^ 31 ->
  exists s',
    run_produce num_elem sizeof_ReadoutType source_size m_time_tick_diff
      (conf_dropouts rate population dis) ts_0 packet_count packet_count_tot schedule
    = Some s'
    /\ pushed s' = []
    /\ m_packet_count_tot s' = packet_count_tot
    /\ timestamp s'
       = u64 (ts_0 + Z.of_nat (passes_run schedule) * (m_time_tick_diff * 12)).
Proof.
  intros Hsz Hone Hfit Hbytes Hpop Hpos Hbelow Hts Hc Ht.
  destruct (conf_dropouts_all_dropped rate population dis Hpos Hbelow) as [Hlen Hnone].
  unfold run_produce.
  destruct (loop_from_pass num_elem sizeof_ReadoutType source_size m_time_tick_diff
              (conf_dropouts rate population dis) Hsz Hone Hfit Hbytes
              ltac:(rewrite Hlen; exact Hpop)
              schedule 0 (State 0 ts_0 0 packet_count packet_count_tot [] 0 []) ts_0)
    as (s' & Hloop & Hstamps & Hts' & _ & Ht' & _); cbn; try lia.
  - now rewrite Nat.Div0.mod_0_l.
  - rewrite Z.add_0_r. symmetry. now apply u64_small.
  - cbn in Hstamps, Hts', Ht'.
    rewrite (filter_nothing _ _ Hnone) in Hstamps, Ht'. cbn in Hstamps, Ht'.
    exists s'. split; [exact Hloop|].
    split; [now apply map_eq_nil in Hstamps|].
    split; [|exact Hts'].
    rewrite Ht', Z.add_0_r. now apply int32_small.
Qed.

(** X16. With a dropout rate other than 0.0 and a random population of
    size 0, [conf] builds an empty table, and the first pass of
    [run_produce] reads [m_dropouts[0]] outside the vector. *)
Theorem empty_dropout_table_is_undefined
    (num_elem sizeof_ReadoutType source_size m_time_tick_diff : Z)
    (rate : double) (dis : nat -> double)
    (ts_0 packet_count packet_count_tot : Z) (p : pass) (schedule : list pass) :
  eq rate zero = false ->
  run_marker p = true ->
  conf_dropouts rate 0 dis = []
  /\ run_produce num_elem sizeof_ReadoutType source_size m_time_tick_diff
       (conf_dropouts rate 0 dis) ts_0 packet_count packet_count_tot (p :: schedule)
     = None.
Proof.
  intros Hrate Hrun. unfold conf_dropouts. rewrite Hrate. cbn [seq map].
  split; [reflexivity|].
  unfold run_produce. cbn [SourceEmulatorModel.loop]. rewrite Hrun.
  reflexivity.
Qed.

(** X17. [set_sink] creates the sink on the first call only: once a sink
    is set, a later call with any name changes nothing. *)
Theorem set_sink_first_call_wins (first later : String.string) (e : emulator) :
  set_sink later (set_sink first e) = set_sink first e
  /\ m_sink_is_set (set_sink first e) = true
  /\ (m_sink_is_set e = false -> m_raw_data_sink (set_sink first e) = Some first).
Proof.
  unfold set_sink. destruct (m_sink_is_set e) eqn:Hset; cbn; rewrite ?Hset; cbn.
  - repeat split. discriminate.
  - repeat split.
Qed.

(** X18. [conf] configures once: while the emulator is configured, a
    further [conf] ignores its arguments and rebuilds nothing.  After
    [scrap], [conf] builds the dropout table anew from the rate given at
    construction, and takes the frame error rate from the link
    configuration. *)
Theorem conf_configures_once
    (lc : link_conf) (dis : nat -> double) (e e1 : emulator) :
  m_is_configured e = false ->
  conf lc dis e = Configured e1 ->
  is_configured e1 = true
  /\ (forall lc' dis', conf lc' dis' e1 = Configured e1)
  /\ is_configured (scrap e1) = false
  /\ (forall lc' dis' records,
        file_read lc' = Some records ->
        exists e2,
          conf lc' dis' (scrap e1) = Configured e2
          /\ is_configured e2 = true
          /\ m_dropouts e2
             = conf_dropouts (m_dropout_rate e) (random_population_size lc') dis'
          /\ m_dropout_rate e2 = m_dropout_rate e
          /\ m_frame_error_rate e2 = emu_frame_error_rate lc').
Proof.
  intros Hnot Hconf. unfold conf in Hconf. rewrite Hnot in Hconf.
  destruct (file_read lc) as [records|]; [|discriminate].
  inversion Hconf; subst e1; clear Hconf.
  split; [reflexivity|]. split; [reflexivity|]. split; [reflexivity|].
  intros lc' dis' records' Hread. unfold conf, scrap. cbn. rewrite Hread.
  eexists. split; [reflexivity|]. cbn. repeat split.
Qed.

(** X19. When the sample file cannot be read, [conf] throws
    [ConfigurationError] before any table is built: the emulator stays
    unconfigured with its dropout table and frame error rate as they
    were, and a later [conf] with a readable file configures it. *)
Theorem conf_read_failure_leaves_unconfigured
    (lc : link_conf) (dis : nat -> double) (e : emulator) :
  m_is_configured e = false ->
  file_read lc = None ->
  exists e',
    conf lc dis e = ConfigurationError e'
    /\ is_configured e' = false
    /\ m_dropouts e' = m_dropouts e
    /\ m_frame_error_rate e' = m_frame_error_rate e
    /\ forall lc' dis' records,
         file_read lc' = Some records ->
         exists e2, conf lc' dis' e' = Configured e2 /\ is_configured e2 = true.
Proof.
  intros Hnot Hread. unfold conf. rewrite Hnot, Hread.
  eexists. split; [reflexivity|]. cbn. repeat split.
  intros lc' dis' records Hread'. rewrite Hread'.
  eexists. split; reflexivity.
Qed.

End DropoutTables.

(* ================================================================== *)
(** * The producer loop without dropouts *)

Section ZeroDropout.
Import SourceEmulatorModel.

Variable num_elem : Z.
Variable sizeof_ReadoutType : Z.
Variable source_size : Z.
Variable m_time_tick_diff : Z.

(** The sample buffer holds [num_elem] whole records, at least one and
    fewer than 2^32 - 1, possibly followed by a part of a record, and
    one more record would still fit a [size_t]. *)
Hypothesis sizeof_positive : 0 < sizeof_ReadoutType.
Hypothesis elements_positive : 0 < num_elem.
Hypothesis elements_fit : num_elem < 2 ^ 32 - 1.
Hypothesis whole_records :
  num_elem * sizeof_ReadoutType <= source_size < (num_elem + 1) * sizeof_ReadoutType.
Hypothesis bytes_fit : (num_elem + 1) * sizeof_ReadoutType < 2 ^ 64.

Local Abbreviation body :=
  (SourceEmulatorModel.body num_elem sizeof_ReadoutType source_size m_time_tick_diff [true]).
Local Abbreviation loop :=
  (SourceEmulatorModel.loop num_elem sizeof_ReadoutType source_size m_time_tick_diff [true]).
Local Abbreviation step := (m_time_tick_diff * 12).

Lemma creates_frame_always (k : nat) : creates_frame [true] k = true.
Proof.
  unfold creates_frame. cbn [length]. now rewrite Nat.mod_1_r.
Qed.

(** With the table [[true]] a pass of the loop copies the record the
    offset points at, wrapping at the end of the buffer, stamps it,
    hands it to the sink and moves the offset on. *)
Lemma body_zero_dropout (accepted : bool) (s : state) :
  0 <= offset s <= num_elem ->
  dropout_index s = 0 ->
  body accepted s
  = Some (State (offset s mod num_elem + 1) (u64 (timestamp s + u64 step)) 0
                (int32 (m_packet_count s + 1)) (int32 (m_packet_count_tot s + 1))
                (pushed s ++ [Payload (offset s mod num_elem) (timestamp s)])
                (if accepted then warnings s else S (warnings s))
                (if accepted
                 then delivered s ++ [Payload (offset s mod num_elem) (timestamp s)]
                 else delivered s)).
Proof.
  intros Hoff Hidx. unfold SourceEmulatorModel.body, dropouts_at. rewrite Hidx.
  cbn [length nth_error Z.to_nat].
  change ((0 <=? 0) && (0 <? Z.of_nat 1)) with true. cbv iota.
  change (Z.of_nat 1 =? 0) with false. cbv iota.
  change ((0 + 1) mod Z.of_nat 1) with 0.
  rewrite (u64_small (num_elem * sizeof_ReadoutType)) by nia.
  rewrite (u32_small (offset s + 1)) by lia.
  rewrite (u64_small ((offset s + 1) * sizeof_ReadoutType)) by nia.
  assert (Hreset : (offset s =? num_elem * sizeof_ReadoutType)
                   || ((offset s + 1) * sizeof_ReadoutType >? source_size)
                   = (offset s =? num_elem)).
  { destruct (Z.eq_dec (offset s) num_elem) as [Heq|Hne].
    - rewrite Heq, Z.eqb_refl. apply orb_true_iff. right. lia.
    - replace (offset s =? num_elem) with false by (symmetry; lia).
      apply orb_false_iff. split; nia. }
  rewrite Hreset.
  assert (Hmod : (if offset s =? num_elem then 0 else offset s) = offset s mod num_elem).
  { destruct (Z.eq_dec (offset s) num_elem) as [Heq|Hne].
    - rewrite Heq, Z.eqb_refl, Z.mod_same by lia. reflexivity.
    - replace (offset s =? num_elem) with false by (symmetry; lia).
      symmetry. apply Z.mod_small. lia. }
  rewrite Hmod.
  pose proof (Z.mod_pos_bound (offset s) num_elem elements_positive) as Hm.
  replace ((offset s mod num_elem + 1) * sizeof_ReadoutType >? source_size) with false
    by (symmetry; nia).
  rewrite (u32_small (offset s mod num_elem + 1)) by lia.
  reflexivity.
Qed.

(** The loop without dropouts from pass number [k] on: every pass
    carried out hands the next record of the buffer to the sink, stamped
    with the timestamp of the pass, and the sink holds the payloads of
    the passes whose push it accepted. *)
Lemma loop_zero_dropout (schedule : list pass) :
  forall (k : nat) (s : state) (ts_0 : Z),
    0 <= offset s <= num_elem ->
    offset s mod num_elem = Z.of_nat k mod num_elem ->
    dropout_index s = 0 ->
    timestamp s = u64 (ts_0 + Z.of_nat k * step) ->
    let payload_of := fun i : nat =>
      Payload (Z.of_nat i mod num_elem) (u64 (ts_0 + Z.of_nat i * step)) in
    exists s',
      loop schedule s = Some s'
      /\ pushed s' = pushed s ++ map payload_of (seq k (passes_run schedule))
      /\ delivered s' = delivered s ++ map payload_of (accepted_passes k schedule)
      /\ warnings s' = (warnings s + refused_pushes [true] k schedule)%nat.
Proof.
  induction schedule as [|p schedule IH]; intros k s ts_0 Hoff Hstep Hidx Hts payload_of.
  - exists s. cbn. rewrite !app_nil_r, Nat.add_0_r. repeat split.
  - cbn [SourceEmulatorModel.loop passes_run accepted_passes refused_pushes].
    destruct (run_marker p).
    + rewrite (body_zero_dropout (push_accepted p) s Hoff Hidx).
      pose proof (Z.mod_pos_bound (offset s) num_elem elements_positive) as Hm.
      match goal with
      | |- context [loop schedule ?s1] =>
          destruct (IH (S k) s1 ts_0) as (s' & Hloop & Hpushed & Hdelivered & Hwarn)
      end.
      * cbn [offset]. lia.
      * cbn [offset]. rewrite Nat2Z.inj_succ, <- Z.add_1_r.
        rewrite Z.add_mod_idemp_l by lia.
        rewrite <- (Z.add_mod_idemp_l (Z.of_nat k)) by lia.
        rewrite <- Hstep. now rewrite Z.add_mod_idemp_l by lia.
      * reflexivity.
      * cbn [timestamp]. rewrite Hts. unfold u64.
        rewrite <- Z.add_mod by lia. f_equal. lia.
      * exists s'. split; [exact Hloop|].
        cbn [pushed delivered warnings] in Hpushed, Hdelivered, Hwarn.
        fold payload_of in Hpushed, Hdelivered.
        assert (Hpay : Payload (offset s mod num_elem) (timestamp s) = payload_of k)
          by (unfold payload_of; now rewrite Hstep, Hts).
        rewrite Hpay in Hpushed, Hdelivered.
        rewrite Hpushed, Hdelivered, Hwarn, creates_frame_always.
        cbn [seq map]. rewrite <- app_assoc. cbn [app].
        split; [reflexivity|].
        destruct (push_accepted p); cbn [andb negb app map].
        -- rewrite <- app_assoc. cbn [app]. split; [reflexivity|lia].
        -- split; [reflexivity|lia].
    + exists s. cbn. rewrite !app_nil_r, Nat.add_0_r. repeat split.
Qed.

(** Every pass carried out either has its push accepted or refused. *)
Lemma accepted_or_refused (schedule : list pass) :
  forall k, (length (accepted_passes k schedule) + refused_pushes [true] k schedule
             = passes_run schedule)%nat.
Proof.
  induction schedule as [|p schedule IH]; intros k; [reflexivity|].
  cbn [accepted_passes refused_pushes passes_run].
  destruct (run_marker p); [|reflexivity].
  rewrite creates_frame_always, length_app. specialize (IH (S k)).
  destruct (push_accepted p); cbn; lia.
Qed.

Lemma accepted_passes_all (schedule : list pass) :
  forall k, forallb push_accepted schedule = true ->
            accepted_passes k schedule = seq k (passes_run schedule).
Proof.
  induction schedule as [|p schedule IH]; intros k Hall; [reflexivity|].
  cbn [forallb] in Hall. apply andb_true_iff in Hall. destruct Hall as [Hp Hrest].
  cbn [accepted_passes passes_run]. rewrite Hp.
  destruct (run_marker p); [|reflexivity].
  cbn. now rewrite IH.
Qed.

(** C10 (amended). With [dropout_rate = 0.0] and draws from [0, 1],
    [conf] builds the one-entry dropout table [[true]], so
    [create_frame] holds on every pass of [run_produce]: pass [i] hands
    record [i mod num_elem] of the sample buffer, stamped
    [ts_0 + i * 12 * m_time_tick_diff], to [push], and the dropout table
    drops none.  The sink holds the payloads of exactly those passes
    whose push did not throw; each push that throws is answered with a
    warning, and when none throws the sink holds every record pushed. *)
Theorem zero_dropout_rate_pushes_every_record
    (rate : double) (population : nat) (dis : nat -> double)
    (ts_0 packet_count packet_count_tot : Z) (schedule : list pass) :
  eq rate zero = true ->
  (forall i, ge (dis i) zero && ge one (dis i) = true) ->
  0 <= ts_0 < 2 ^ 64 ->
  let payload_of := fun i : nat =>
    Payload (Z.of_nat i mod num_elem) (u64 (ts_0 + Z.of_nat i * (m_time_tick_diff * 12))) in
  conf_dropouts rate population dis = [true]
  /\ (forall i, creates_frame (conf_dropouts rate population dis) i = true)
  /\ exists s',
       run_produce num_elem sizeof_ReadoutType source_size m_time_tick_diff
         (conf_dropouts rate population dis) ts_0 packet_count packet_count_tot schedule
       = Some s'
       /\ pushed s' = map payload_of (seq 0 (passes_run schedule))
       /\ delivered s' = map payload_of (accepted_passes 0 schedule)
       /\ (length (delivered s') + warnings s' = length (pushed s'))%nat
       /\ (forallb push_accepted schedule = true ->
           delivered s' = pushed s' /\ warnings s' = 0%nat).
Proof.
  intros Hrate Hdraw Hts payload_of.
  pose proof (conf_dropouts_zero_rate rate population dis Hrate Hdraw) as Htable.
  rewrite Htable. split; [reflexivity|]. split; [exact creates_frame_always|].
  unfold run_produce.
  destruct (loop_zero_dropout schedule 0
              (State 0 ts_0 0 packet_count packet_count_tot [] 0 []) ts_0)
    as (s' & Hloop & Hpushed & Hdelivered & Hwarn); cbn [offset dropout_index timestamp].
  - lia.
  - reflexivity.
  - reflexivity.
  - cbn. rewrite Z.add_0_r. symmetry. now apply u64_small.
  - cbn [pushed delivered warnings app Nat.add] in Hpushed, Hdelivered, Hwarn.
    fold payload_of in Hpushed, Hdelivered.
    pose proof (accepted_or_refused schedule 0) as Hcount.
    exists s'. split; [exact Hloop|]. split; [exact Hpushed|]. split; [exact Hdelivered|].
    split.
    + rewrite Hpushed, Hdelivered, Hwarn, !length_map, length_seq. exact Hcount.
    + intros Hall. rewrite Hpushed, Hdelivered, Hwarn.
      rewrite (accepted_passes_all schedule 0 Hall) in Hcount |- *.
      rewrite length_seq in Hcount. split; [reflexivity|lia].
Qed.

End ZeroDropout.

(** A sample buffer of three 8-byte records, a rate of [0.0], draws that
    are all [0.5] and four passes before the run marker is cleared: the
    records 0, 1, 2 and again 0 reach the sink. *)
Lemma zero_dropout_rate_pushes_every_record_witness :
  exists s',
    SourceEmulatorModel.run_produce 3 8 24 10
      (SourceEmulatorModel.conf_dropouts SourceEmulatorModel.zero 100
         (fun _ => S754_finite false 4503599627370496 (-53)))
      100 0 0
      [SourceEmulatorModel.Pass true true; SourceEmulatorModel.Pass true true;
       SourceEmulatorModel.Pass true true; SourceEmulatorModel.Pass true true;
       SourceEmulatorModel.Pass false true]
    = Some s'
    /\ SourceEmulatorModel.pushed s'
       = [SourceEmulatorModel.Payload 0 100; SourceEmulatorModel.Payload 1 220;
          SourceEmulatorModel.Payload 2 340; SourceEmulatorModel.Payload 0 460]
    /\ SourceEmulatorModel.delivered s' = SourceEmulatorModel.pushed s'.
Proof.
  destruct (zero_dropout_rate_pushes_every_record 3 8 24 10)
    with (rate := SourceEmulatorModel.zero) (population := 100%nat)
         (dis := fun _ : nat => S754_finite false 4503599627370496 (-53))
         (ts_0 := 100) (packet_count := 0) (packet_count_tot := 0)
         (schedule := [SourceEmulatorModel.Pass true true; SourceEmulatorModel.Pass true true;
                       SourceEmulatorModel.Pass true true; SourceEmulatorModel.Pass true true;
                       SourceEmulatorModel.Pass false true])
    as (_ & _ & s' & Hrun & Hpushed & _ & _ & Hall);
    try reflexivity; try (cbn; lia).
  exists s'. split; [exact Hrun|]. split; [exact Hpushed|].
  exact (proj1 (Hall eq_refl)).
Defined.

(** C10 as stated fails: with a rate of [0.0] the table is [[true]] and
    both passes hand their record to [push], but the push of the second
    pass throws; the sink holds record 0 only, record 1 is lost and a
    warning is issued. *)
Lemma zero_dropout_rate_refused_push_is_lost :
  SourceEmulatorModel.conf_dropouts SourceEmulatorModel.zero 100
    (fun _ => S754_finite false 4503599627370496 (-53)) = [true]
  /\ SourceEmulatorModel.run_produce 3 8 24 10
       (SourceEmulatorModel.conf_dropouts SourceEmulatorModel.zero 100
          (fun _ => S754_finite false 4503599627370496 (-53)))
       100 0 0
       [SourceEmulatorModel.Pass true true; SourceEmulatorModel.Pass true false;
        SourceEmulatorModel.Pass false true]
     = Some (SourceEmulatorModel.State 2 340 0 2 2
               [SourceEmulatorModel.Payload 0 100; SourceEmulatorModel.Payload 1 220]
               1
               [SourceEmulatorModel.Payload 0 100])
  /\ ~ In (SourceEmulatorModel.Payload 1 220) [SourceEmulatorModel.Payload 0 100].
Proof.
  split; [reflexivity|]. split; [reflexivity|].
  intros [Heq|[]]. discriminate.
Qed.

(* ================================================================== *)
(** * The further properties on examples *)

Lemma fast_path_monotone_witness :
  exists k1 k2,
    0 <= k1 /\ k1 <= k2 /\ k2 <= occupancy_of wrapped_records
    /\ FixedRateQueueModel.lookup trust_all (frame 110) false wrapped_records
       = Returns (IterAt (physical wrapped_records k1)) wrapped_records
    /\ FixedRateQueueModel.lookup trust_all (frame 145) false wrapped_records
       = Returns (IterAt (physical wrapped_records k2)) wrapped_records.
Proof.
  refine (fast_path_monotone (BinarySearchQueueModel.lower_bound trust_all)
            wrapped_records (frame 110) (frame 145) (frame 100) _ _ _ _ _ _ _ _);
    try reflexivity; vm_compute; discriminate.
Defined.

Lemma fast_path_reads_only_front_slot_witness :
  returned (FixedRateQueueModel.lookup trust_all (frame 150) false three_records)
  = returned (FixedRateQueueModel.lookup trust_all (frame 150) false uneven_records).
Proof.
  refine (fast_path_reads_only_front_slot (BinarySearchQueueModel.lower_bound trust_all)
            three_records uneven_records (frame 150) _ _ _ _); reflexivity.
Defined.

Lemma fast_path_window_end_hits_write_cursor_witness :
  FixedRateQueueModel.lookup trust_all (frame 160) false three_records
  = Returns (IterAt 3) three_records.
Proof.
  refine (proj1
    (fast_path_window_end_hits_write_cursor (BinarySearchQueueModel.lower_bound trust_all)
       three_records (frame 160) (frame 100) _ _ _ _ _ _)); reflexivity.
Defined.

Lemma fast_path_inside_window_is_retained_witness :
  exists k r',
    FixedRateQueueModel.lookup trust_all (frame 150) false three_records
    = Returns (IterAt (physical three_records k)) three_records
    /\ retained three_records k = Some r'.
Proof.
  refine (fast_path_inside_window_is_retained (BinarySearchQueueModel.lower_bound trust_all)
            three_records (frame 150) (frame 100) _ _ _ _ _ _ _ _);
    try reflexivity; vm_compute; discriminate.
Defined.

(** The slot at the read cursor holds a record that reports 0 frames. *)
Lemma fast_path_zero_span_divides_by_zero_witness :
  FixedRateQueueModel.lookup trust_all (frame 100) false
    (Build 4 [MkFrame 100 0; frame 120; frame 140; frame 0] 0 1)
  = Undefined.
Proof.
  refine (proj2
    (fast_path_zero_span_divides_by_zero (BinarySearchQueueModel.lower_bound trust_all)
       (Build 4 [MkFrame 100 0; frame 120; frame 140; frame 0] 0 1)
       (frame 100) (MkFrame 100 0) _ _) _); try reflexivity.
  right. reflexivity.
Defined.

Lemma fast_path_finds_retained_record_witness :
  retained wrapped_records 2 = Some (frame 140)
  /\ FixedRateQueueModel.lookup trust_all (frame 140) false wrapped_records
     = Returns (IterAt (physical wrapped_records 2)) wrapped_records.
Proof.
  split; [reflexivity|].
  refine (fast_path_finds_retained_record (BinarySearchQueueModel.lower_bound trust_all)
            wrapped_records (frame 100) (frame 140) (frame 140) 2 2 _ _ _ _ _ _ _ _ _);
    try reflexivity; vm_compute; discriminate.
Defined.

(** A sample buffer of three 8-byte records, 10 ticks per sample, the
    table [[true; false]] and three passes before the run marker is
    cleared; the sink refuses the push of the third pass. *)
Lemma run_produce_stamps_pushing_passes_witness :
  exists s',
    SourceEmulatorModel.run_produce 3 8 24 10 [true; false] 100 0 0
      [SourceEmulatorModel.Pass true true; SourceEmulatorModel.Pass true true;
       SourceEmulatorModel.Pass true false; SourceEmulatorModel.Pass false true]
    = Some s'
    /\ map SourceEmulatorModel.stamped_timestamp (SourceEmulatorModel.pushed s')
       = [100; 340]
    /\ SourceEmulatorModel.timestamp s' = 460.
Proof.
  refine (run_produce_stamps_pushing_passes 3 8 24 10 [true; false] _ _ _ _ _ 100 0 0
            [SourceEmulatorModel.Pass true true; SourceEmulatorModel.Pass true true;
             SourceEmulatorModel.Pass true false; SourceEmulatorModel.Pass false true]
            _ _ _); cbn; lia.
Defined.

Lemma run_produce_counts_refused_pushes_witness :
  exists s',
    SourceEmulatorModel.run_produce 3 8 24 10 [true; false] 100 0 0
      [SourceEmulatorModel.Pass true true; SourceEmulatorModel.Pass true true;
       SourceEmulatorModel.Pass true false; SourceEmulatorModel.Pass false true]
    = Some s'
    /\ SourceEmulatorModel.m_packet_count_tot s'
       = int32 (0 + Z.of_nat (length (SourceEmulatorModel.pushed s')))
    /\ SourceEmulatorModel.warnings s' = 1%nat.
Proof.
  destruct (run_produce_counts_refused_pushes 3 8 24 10 [true; false])
    with (ts_0 := 100) (packet_count := 0) (packet_count_tot := 0)
         (schedule := [SourceEmulatorModel.Pass true true; SourceEmulatorModel.Pass true true;
                       SourceEmulatorModel.Pass true false; SourceEmulatorModel.Pass false true])
    as (s' & Hrun & _ & Ht & Hw & _); try (cbn; lia).
  exists s'. split; [exact Hrun|]. split; [exact Ht|exact Hw].
Defined.

Lemma get_info_reports_and_resets_witness :
  exists s',
    SourceEmulatorModel.run_produce 3 8 24 10 [true; false] 100 5 7
      [SourceEmulatorModel.Pass true true; SourceEmulatorModel.Pass true true;
       SourceEmulatorModel.Pass true false; SourceEmulatorModel.Pass false true]
    = Some s'
    /\ SourceEmulatorModel.new_packets
         (fst (SourceEmulatorModel.get_info (snd (SourceEmulatorModel.get_info s')))) = 0.
Proof.
  destruct (get_info_reports_and_resets 3 8 24 10 [true; false])
    with (ts_0 := 100) (packet_count := 5) (packet_count_tot := 7)
         (schedule := [SourceEmulatorModel.Pass true true; SourceEmulatorModel.Pass true true;
                       SourceEmulatorModel.Pass true false; SourceEmulatorModel.Pass false true])
    as (s' & Hrun & _ & Hsecond & _); try (cbn; lia).
  exists s'. split; [exact Hrun|]. now rewrite Hsecond.
Defined.

Lemma run_produce_replays_cyclically_witness :
  exists s',
    SourceEmulatorModel.run_produce 2 8 (2 * 8) 10 [true] 100 0 0
      [SourceEmulatorModel.Pass true true; SourceEmulatorModel.Pass true true;
       SourceEmulatorModel.Pass true true; SourceEmulatorModel.Pass false true]
    = Some s'
    /\ map SourceEmulatorModel.source_record (SourceEmulatorModel.pushed s')
       = map (fun i => Z.of_nat i mod 2)
             (seq 0 (length (SourceEmulatorModel.pushed s'))).
Proof.
  refine (run_produce_replays_cyclically 2 8 10 [true] _ _ _ _ 100 0 0
            [SourceEmulatorModel.Pass true true; SourceEmulatorModel.Pass true true;
             SourceEmulatorModel.Pass true true; SourceEmulatorModel.Pass false true]
            _ _ _ _); cbn; lia.
Defined.

(** A rate of 1.0 and draws that are all 0.5. *)
Lemma draws_below_rate_drop_every_frame_witness :
  exists s',
    SourceEmulatorModel.run_produce 3 8 24 10
      (SourceEmulatorModel.conf_dropouts SourceEmulatorModel.one 4
         (fun _ => S754_finite false 4503599627370496 (-53)))
      100 0 0
      [SourceEmulatorModel.Pass true true; SourceEmulatorModel.Pass true true;
       SourceEmulatorModel.Pass false true]
    = Some s'
    /\ SourceEmulatorModel.pushed s' = [].
Proof.
  destruct (draws_below_rate_drop_every_frame 3 8 24 10 SourceEmulatorModel.one 4
              (fun _ => S754_finite false 4503599627370496 (-53)) 100 0 0
              [SourceEmulatorModel.Pass true true; SourceEmulatorModel.Pass true true;
               SourceEmulatorModel.Pass false true])
    as (s' & Hrun & Hnone & _); try reflexivity; try (cbn; lia).
  exists s'. split; [exact Hrun|exact Hnone].
Defined.

Lemma empty_dropout_table_is_undefined_witness :
  SourceEmulatorModel.run_produce 3 8 24 10
    (SourceEmulatorModel.conf_dropouts SourceEmulatorModel.one 0
       (fun _ => S754_finite false 4503599627370496 (-53)))
    100 0 0 [SourceEmulatorModel.Pass true true]
  = None.
Proof.
  refine (proj2
    (empty_dropout_table_is_undefined 3 8 24 10 SourceEmulatorModel.one
       (fun _ => S754_finite false 4503599627370496 (-53)) 100 0 0
       (SourceEmulatorModel.Pass true true) [] _ _)); reflexivity.
Defined.

Lemma conf_configures_once_witness :
  SourceEmulatorModel.conf
    (SourceEmulatorModel.LinkConf 8 SourceEmulatorModel.one None)
    (fun _ => SourceEmulatorModel.one)
    (SourceEmulatorModel.Emulator SourceEmulatorModel.zero SourceEmulatorModel.zero
       false None true (SourceEmulatorModel.Loaded 3) [true] 2 2)
  = SourceEmulatorModel.Configured
      (SourceEmulatorModel.Emulator SourceEmulatorModel.zero SourceEmulatorModel.zero
         false None true (SourceEmulatorModel.Loaded 3) [true] 2 2).
Proof.
  refine (proj1 (proj2
    (conf_configures_once
       (SourceEmulatorModel.LinkConf 2 SourceEmulatorModel.zero (Some 3))
       (fun _ => S754_finite false 4503599627370496 (-53))
       (SourceEmulatorModel.Emulator SourceEmulatorModel.zero SourceEmulatorModel.one
          false None false SourceEmulatorModel.NoBuffer [] 100 100)
       _ _ _)) _ _); reflexivity.
Defined.

Lemma conf_read_failure_leaves_unconfigured_witness :
  exists e',
    SourceEmulatorModel.conf
      (SourceEmulatorModel.LinkConf 2 SourceEmulatorModel.zero None)
      (fun _ => S754_finite false 4503599627370496 (-53))
      (SourceEmulatorModel.Emulator SourceEmulatorModel.zero SourceEmulatorModel.one
         false None false SourceEmulatorModel.NoBuffer [] 100 100)
    = SourceEmulatorModel.ConfigurationError e'
    /\ SourceEmulatorModel.is_configured e' = false.
Proof.
  destruct (conf_read_failure_leaves_unconfigured
              (SourceEmulatorModel.LinkConf 2 SourceEmulatorModel.zero None)
              (fun _ => S754_finite false 4503599627370496 (-53))
              (SourceEmulatorModel.Emulator SourceEmulatorModel.zero SourceEmulatorModel.one
                 false None false SourceEmulatorModel.NoBuffer [] 100 100))
    as (e' & Hconf & Hnot & _); try reflexivity.
  exists e'. split; [exact Hconf|exact Hnot].
Defined.

Section SinkNames.
Import Strings.String.

Lemma set_sink_first_call_wins_witness :
  SourceEmulatorModel.m_raw_data_sink
    (SourceEmulatorModel.set_sink "second"
       (SourceEmulatorModel.set_sink "first"
          (SourceEmulatorModel.Emulator SourceEmulatorModel.zero SourceEmulatorModel.zero
             false None false SourceEmulatorModel.NoBuffer [] 100 100)))
  = Some "first"%string.
Proof.
  rewrite (proj1 (set_sink_first_call_wins "first" "second" _)).
  refine (proj2 (proj2 (set_sink_first_call_wins "first" "second" _)) _).
  reflexivity.
Defined.

End SinkNames.
